(** * The crash-loop informer: reconciliation pass, debounce, retry ceiling

    A shallow embedding of [pkg/controller/controller.go]: the controller that
    pops pod keys from a rate-limited work queue, reads the pod from the
    informer cache, and posts an alert to Mattermost for every container stuck
    in [CrashLoopBackOff], at most once per cool-down window.

    Collaborators that live outside the package (the informer cache, the
    Kubernetes clientset, the Mattermost client, the clock, the strconv and
    time packages) are represented by what the controller observes of them.
    The calls of [klog] write log lines and change nothing the controller
    reads back; they are left out. *)

From Stdlib Require Import ZArith String Ascii List Lia Bool.
From stdpp Require Import base option gmap strings list fin_maps.

Local Open Scope string_scope.
Local Open Scope list_scope.
Local Open Scope Z_scope.

(** ** Go's [error] values

    An [error] is carried as its message; a possibly-nil [error] is an
    [option error], [None] standing for [nil]. *)
Abbreviation error := string (only parsing).

(** ** package time *)

Module time.

(** A [time.Time] is an instant, counted in nanoseconds from January 1,
    year 1 00:00:00 UTC; the zero value of the type is that instant.  A
    [time.Duration] is an [int64] count of nanoseconds. *)
Abbreviation Time := Z (only parsing).
Abbreviation Duration := Z (only parsing).

Definition zeroTime : Time := 0.

Definition minDuration : Duration := - 2 ^ 63.
Definition maxDuration : Duration := 2 ^ 63 - 1.

(** Two's complement wrap-around of [int64] arithmetic. *)
Definition wrap64 (z : Z) : Z := (z + 2 ^ 63) mod 2 ^ 64 - 2 ^ 63.

Definition Nanosecond : Duration := 1.
Definition Second : Duration := 1000000000.
Definition Minute : Duration := 60 * Second.

(** [a * b] on two [Duration]s. *)
Definition mul (a b : Duration) : Duration := wrap64 (a * b).

(** [t.Sub(u)]: the duration [t - u], or the maximum (minimum) duration
    when the difference exceeds what a [Duration] can hold. *)
Definition Sub (t u : Time) : Duration :=
  if t - u <? minDuration then minDuration
  else if maxDuration <? t - u then maxDuration
  else t - u.

(** The instant of the Unix epoch (January 1, 1970 UTC) on this time line:
    [unixToInternal] seconds after the zero instant. *)
Definition unixEpoch : Time := 62135596800 * Second.

End time.

(** ** package strconv *)

Module strconv.

Definition ErrSyntax : error := "invalid syntax".
Definition ErrRange : error := "value out of range".

Definition maxUint64 : Z := 2 ^ 64 - 1.

(** The value of a decimal digit, if the byte is one. *)
Definition digitVal (a : ascii) : option Z :=
  let n := Z.of_N (N_of_ascii a) in
  if (48 <=? n) && (n <=? 57) then Some (n - 48) else None.

(** The digit loop of [ParseUint(s, 10, 64)]: a byte that is not a digit is
    a syntax error (value 0); a value that leaves [uint64] is a range error
    (value [maxUint64]), reported as soon as it is met. *)
Fixpoint parseDigits (s : string) (n : Z) : Z * option error :=
  match s with
  | EmptyString => (n, None)
  | String a rest =>
      match digitVal a with
      | None => (0, Some ErrSyntax)
      | Some d =>
          if maxUint64 / 10 + 1 <=? n then (maxUint64, Some ErrRange)
          else if maxUint64 <? n * 10 + d then (maxUint64, Some ErrRange)
          else parseDigits rest (n * 10 + d)
      end
  end.

Definition ParseUint (s : string) : Z * option error :=
  match s with
  | EmptyString => (0, Some ErrSyntax)
  | _ => parseDigits s 0
  end.

(** [ParseInt(s, 10, 64)]: an optional sign, then [ParseUint]; an out of
    range value is clamped to the nearest [int64]. *)
Definition ParseInt (s : string) : Z * option error :=
  match s with
  | EmptyString => (0, Some ErrSyntax)
  | String a rest =>
      let neg := Ascii.eqb a "-" in
      let body := if Ascii.eqb a "+" || neg then rest else s in
      let '(un, err) := ParseUint body in
      match err with
      | Some e =>
          if String.eqb e ErrRange then
            if neg then (- 2 ^ 63, Some ErrRange) else (2 ^ 63 - 1, Some ErrRange)
          else (0, Some e)
      | None =>
          if negb neg && (2 ^ 63 <=? un) then (2 ^ 63 - 1, Some ErrRange)
          else if neg && (2 ^ 63 <? un) then (- 2 ^ 63, Some ErrRange)
          else (if neg then - un else un, None)
      end
  end.

(** [Atoi(s)] is [ParseInt(s, 10, 0)] converted to [int]; the binary is
    built for [GOARCH=amd64], where [int] has 64 bits. *)
Definition Atoi (s : string) : Z * option error := ParseInt s.

End strconv.

(** ** The Kubernetes objects the controller reads *)

Record ContainerStateWaiting := { Waiting_Reason : string }.
Record ContainerStateTerminated := { Terminated_Reason : string }.

(** A nil pointer is [None]. *)
Record ContainerState := {
  Waiting : option ContainerStateWaiting;
  Terminated : option ContainerStateTerminated
}.

Record ContainerStatus := {
  Container_Name : string;
  Ready : bool;
  State : ContainerState;
  LastTerminationState : ContainerState
}.

Record Pod := {
  Name : string;
  Namespace : string;
  Annotations : gmap string string;
  ContainerStatuses : list ContainerStatus
}.

(** Indexing a [map[string]string]: the empty string when the key is absent. *)
Definition GetAnnotation (pod : Pod) (k : string) : string :=
  default "" (Annotations pod !! k).

(** ** The Mattermost attachment *)

Record SlackAttachmentField := { Field_Title : string; Field_Value : string }.

Record SlackAttachment := {
  Color : string;
  Text : string;
  Title : string;
  Fields : list SlackAttachmentField
}.

(** ** The world around the controller

    What the collaborators answer during one reconciliation pass.
    - [Now n] is the [n]-th reading of the clock the controller makes itself,
      with [time.Now()] or [time.Since]; readings the libraries it calls make
      for themselves are not counted.
    - [GetByKey key] is the answer of [c.indexer.GetByKey(key)]: the object
      (an [interface{}], [None] when nil), whether it exists, and an error.
    - [GetLogs ns pod container] is the answer of the clientset's
      [CoreV1().Pods(ns).GetLogs(pod, ...).Do().Raw()]: the bytes and an error.
    - [SendResult n a] is the outcome of the [n]-th call of
      [c.mattermost.SendAttachements], made with attachment [a]; [pkg/utils],
      which holds the client, is not part of the sources at hand, so its
      outcome is left open. *)
Record Env := {
  Now : nat -> time.Time;
  GetByKey : string -> option Pod * bool * option error;
  GetLogs : string -> string -> string -> string * option error;
  SendResult : nat -> SlackAttachment -> option error
}.

(** client-go's thread-safe store behind [cache.Indexer]: it answers with the
    stored item and whether the key was found, and never with an error; for a
    key that is not stored the item is the nil interface. *)
Definition storeGetByKey (items : gmap string Pod) (key : string)
  : option Pod * bool * option error :=
  (items !! key, bool_decide (is_Some (items !! key)), None).

(** ** The controller's state

    [timeouts] is the field of the struct.  The other collaborators are kept
    as what the controller does to them:
    - [failures]: the per-key failure count of the queue's rate limiter, read
      by [NumRequeues], incremented by [AddRateLimited], deleted by [Forget];
    - [delayed]: the keys handed to [AddRateLimited], oldest first;
    - [done]: the keys handed to [Done];
    - [posts]: the attachments handed to [SendAttachements], oldest first;
    - [handled]: the errors handed to [runtime.HandleError];
    - [ticks]: how many times the clock has been read. *)
Record Controller := mkController {
  timeouts : gmap string Z;
  failures : gmap string nat;
  delayed : list string;
  done : list string;
  posts : list SlackAttachment;
  handled : list error;
  ticks : nat
}.

(** [NewController]: [timeouts] is made empty; nothing has happened yet. *)
Definition NewController : Controller :=
  mkController ∅ ∅ [] [] [] [] 0%nat.

(** ** Computations of the controller: state, and Go's panics *)

Inductive result (A : Type) : Type :=
| Return (a : A)
| Panic (msg : string).
Arguments Return {A} a.
Arguments Panic {A} msg.

Definition M (A : Type) : Type := Controller -> result A * Controller.

Definition ret {A} (a : A) : M A := fun c => (Return a, c).

Definition bind {A B} (m : M A) (k : A -> M B) : M B :=
  fun c =>
    match m c with
    | (Return a, c') => k a c'
    | (Panic msg, c') => (Panic msg, c')
    end.

Definition panic {A} (msg : string) : M A := fun c => (Panic msg, c).

Definition gets {A} (f : Controller -> A) : M A := fun c => (Return (f c), c).

Definition modify (f : Controller -> Controller) : M unit :=
  fun c => (Return tt, f c).

(** [defer d] before a body: [d] runs when the body returns or panics. *)
Definition defer {A} (d : M unit) (body : M A) : M A :=
  fun c => let '(r, c') := body c in (r, snd (d c')).

Notation "'let*' x ':=' m 'in' k" := (bind m (fun x => k))
  (at level 10, x name, m at level 100, k at level 200).
Notation "m '>>' k" := (bind m (fun _ => k))
  (at level 100, k at level 200, right associativity).

(** [for _, x := range l { body x }] *)
Fixpoint forRange {A} (l : list A) (body : A -> M unit) : M unit :=
  match l with
  | [] => ret tt
  | x :: rest => body x >> forRange rest body
  end.

(** ** The work queue, as the controller uses it

    [workqueue.RateLimitingInterface] with the default controller rate
    limiter: [NumRequeues] is the failure count of the key, [AddRateLimited]
    counts one more failure and schedules the key again after a delay,
    [Forget] drops the count. *)
Definition NumRequeues (key : string) : M nat :=
  gets (fun c => default 0%nat (failures c !! key)).

Definition AddRateLimited (key : string) : M unit :=
  modify (fun c =>
    mkController (timeouts c)
      (<[key := S (default 0%nat (failures c !! key))]> (failures c))
      (delayed c ++ [key]) (done c) (posts c) (handled c) (ticks c)).

Definition Forget (key : string) : M unit :=
  modify (fun c =>
    mkController (timeouts c) (delete key (failures c))
      (delayed c) (done c) (posts c) (handled c) (ticks c)).

Definition Done (key : string) : M unit :=
  modify (fun c =>
    mkController (timeouts c) (failures c)
      (delayed c) (done c ++ [key]) (posts c) (handled c) (ticks c)).

(** [runtime.HandleError(err)] *)
Definition HandleError (err : error) : M unit :=
  modify (fun c =>
    mkController (timeouts c) (failures c)
      (delayed c) (done c) (posts c) (handled c ++ [err]) (ticks c)).

(** The type assertion of [obj] to a pod pointer: it panics on the nil
    interface. *)
Definition assertPod (obj : option Pod) : M Pod :=
  match obj with
  | Some pod => ret pod
  | None => panic "interface conversion: interface {} is nil, not *v1.Pod"
  end.

Definition annotationEnableMattermost : string := "espe.tech/mattermost".
Definition annotationEnableMattermostInform : string := "inform".

Definition annotationMattermostBackoff : string := "espe.tech/mattermost-backoff".
Definition annotationMattermostBackoffDefault : time.Duration :=
  time.mul time.Minute 10.

(** The line feed, ["\n"]. *)
Definition LF : string := String (ascii_of_nat 10) EmptyString.

Section Reconciler.

Variable env : Env.

(** [time.Now()] *)
Definition time_Now : M Z :=
  fun c =>
    (Return (Now env (ticks c)),
     mkController (timeouts c) (failures c) (delayed c) (done c)
       (posts c) (handled c) (S (ticks c))).

(** [time.Since(t)] is [time.Now().Sub(t)]. *)
Definition time_Since (t : Z) : M Z :=
  let* now := time_Now in ret (time.Sub now t).

(** [c.mattermost.SendAttachements(attachment)] *)
Definition SendAttachements (attachment : SlackAttachment) : M (option error) :=
  fun c =>
    (Return (SendResult env (length (posts c)) attachment),
     mkController (timeouts c) (failures c) (delayed c) (done c)
       (posts c ++ [attachment]) (handled c) (ticks c)).

Definition hasValidAnnotation (pod : Pod) : bool :=
  String.eqb (GetAnnotation pod annotationEnableMattermost)
             annotationEnableMattermostInform.

(** Lines 78-83 of [refreshBackoff]: the cool-down window of the pod. *)
Definition backoffWindow (pod : Pod) : Z :=
  let backoff := annotationMattermostBackoffDefault in
  let backoffVal := GetAnnotation pod annotationMattermostBackoff in
  if negb (String.eqb backoffVal "") then
    let '(seconds, err) := strconv.Atoi backoffVal in
    match err with
    | Some _ => time.mul seconds time.Second
    | None => backoff
    end
  else backoff.

Definition refreshBackoff (pod : Pod) (container : ContainerStatus) : M bool :=
  let backoff := backoffWindow pod in
  let* last := gets (fun c => default time.zeroTime (timeouts c !! Name pod)) in
  let* since := time_Since last in
  if since <? backoff then ret false
  else
    let* now := time_Now in
    modify (fun c =>
      mkController (<[Name pod := now]> (timeouts c)) (failures c)
        (delayed c) (done c) (posts c) (handled c) (ticks c)) >>
    ret true.

Definition clearTimeout (pod : Pod) : M unit :=
  modify (fun c =>
    mkController (delete (Name pod) (timeouts c)) (failures c)
      (delayed c) (done c) (posts c) (handled c) (ticks c)).

(** The attachment [sendCrashNotification] builds from the fetched bytes. *)
Definition crashAttachment (pod : Pod) (container : ContainerStatus)
    (logs : string) : SlackAttachment :=
  let message :=
    "Container " +:+ Container_Name container +:+ " of pod " +:+ Name pod
    +:+ " keeps crashing, maybe its time to intervene." in
  let fields :=
    [ {| Field_Title := "Logs";
         Field_Value := "```" +:+ LF +:+ logs +:+ "```" |} ] in
  {| Color := "#AD2200";
     Text := message;
     Title := "Crash loop detected!";
     Fields :=
       match Terminated (LastTerminationState container) with
       | Some t =>
           fields ++ [ {| Field_Title := "Reason";
                          Field_Value := Terminated_Reason t |} ]
       | None => fields
       end |}.

Definition sendCrashNotification (pod : Pod) (container : ContainerStatus)
  : M unit :=
  let '(logs, _) := GetLogs env (Namespace pod) (Name pod)
                      (Container_Name container) in
  SendAttachements (crashAttachment pod container logs) >> ret tt.

(** The body of the loop of [handlePodUpdate].  Reading the reason of a nil
    [Waiting] would be a nil dereference; the guard excludes it. *)
Definition handleContainer (pod : Pod) (container : ContainerStatus) : M unit :=
  if negb (Ready container)
     && bool_decide (Waiting (State container) <> None)
     && hasValidAnnotation pod
  then
    match Waiting (State container) with
    | Some waiting =>
        if String.eqb (Waiting_Reason waiting) "CrashLoopBackOff" then
          let* fresh := refreshBackoff pod container in
          if negb fresh then ret tt
          else sendCrashNotification pod container
        else ret tt
    | None => panic "invalid memory address or nil pointer dereference"
    end
  else ret tt.

Definition handlePodUpdate (pod : Pod) : M unit :=
  forRange (ContainerStatuses pod) (handleContainer pod).

Definition syncToStdout (key : string) : M (option error) :=
  let '(obj, exists_, err) := GetByKey env key in
  match err with
  | Some e => ret (Some e)
  | None =>
      (if negb exists_ then
         let* pod := assertPod obj in clearTimeout pod
       else
         let* pod := assertPod obj in handlePodUpdate pod) >>
      ret None
  end.

Definition handleErr (err : option error) (key : string) : M unit :=
  match err with
  | None => Forget key
  | Some e =>
      let* n := NumRequeues key in
      if (n <? 5)%nat then AddRateLimited key
      else Forget key >> HandleError e
  end.

(** [got] is what [c.queue.Get()] answered: the key, and whether the queue
    is shutting down. *)
Definition processNextItem (got : string * bool) : M bool :=
  let '(key, quit) := got in
  if quit then ret false
  else
    defer (Done key)
      (let* err := syncToStdout key in
       handleErr err key >>
       ret true).

End Reconciler.

(** The controller after one more reading of the clock. *)
Definition tick (c : Controller) : Controller :=
  mkController (timeouts c) (failures c) (delayed c) (done c)
    (posts c) (handled c) (S (ticks c)).

(** The instant stored for [name]; the zero instant when there is none. *)
Definition lastNotified (c : Controller) (name : string) : Z :=
  default time.zeroTime (timeouts c !! name).

(** [c'] still has a timestamp for every name [c] has one for. *)
Definition keepsTimestamps (c c' : Controller) : Prop :=
  forall k : string, is_Some (timeouts c !! k) -> is_Some (timeouts c' !! k).

(** The failure count [NumRequeues] reads for [key]. *)
Definition requeues (c : Controller) (key : string) : nat :=
  default 0%nat (failures c !! key).

(** The controller after reconciliations of [key] failed in a row, one with
    each error of [errs], and each error was given to [handleErr]. *)
Definition afterFailures (errs : list string) (key : string) (c : Controller)
  : Controller :=
  fold_left (fun c e => snd (handleErr (Some e) key c)) errs c.

(** [c'] has the queue and the error reporter as [c] has them. *)
Definition sameQueue (c c' : Controller) : Prop :=
  failures c' = failures c /\ delayed c' = delayed c
  /\ handled c' = handled c /\ done c' = done c.

(** The crash-loop signature read off one container status: not ready, and
    waiting with the reason [CrashLoopBackOff]. *)
Definition isCrashLooping (ct : ContainerStatus) : Prop :=
  Ready ct = false
  /\ exists w, Waiting (State ct) = Some w
              /\ Waiting_Reason w = "CrashLoopBackOff".

(** The pod carries the opt-in annotation. *)
Definition optedIn (pod : Pod) : Prop :=
  GetAnnotation pod annotationEnableMattermost = annotationEnableMattermostInform.

(** The cool-down window of the pod has elapsed at the next reading of the
    clock, counted from the timestamp stored under the pod's name. *)
Definition debouncePasses (env : Env) (pod : Pod) (c : Controller) : Prop :=
  backoffWindow pod <= time.Sub (Now env (ticks c)) (lastNotified c (Name pod)).

(** The attachment an alert for container [ct] of [pod] carries in [env]. *)
Definition alertFor (env : Env) (pod : Pod) (ct : ContainerStatus)
  : SlackAttachment :=
  crashAttachment pod ct
    (fst (GetLogs env (Namespace pod) (Name pod) (Container_Name ct))).

(** [runWorker]: the loop [for c.processNextItem() { }].  [steps] lists, for
    every call of [c.queue.Get()] that answers, the world at that moment and
    the answer; when the answers run out the worker is blocked in [Get]. *)
Fixpoint runWorker (steps : list (Env * (string * bool))) : M unit :=
  match steps with
  | [] => ret tt
  | (env, got) :: rest =>
      let* more := processNextItem env got in
      if more then runWorker rest else ret tt
  end.

(** [a] is the alert of a crash-looping container of [pod]. *)
Definition alertOf (env : Env) (pod : Pod) (a : SlackAttachment) : Prop :=
  exists ct, In ct (ContainerStatuses pod) /\ isCrashLooping ct
             /\ a = alertFor env pod ct.

(** The business-logic step and the error handler share nothing but the
    error: what the step may change, the handler leaves alone. *)
Definition sameBusinessState (c c' : Controller) : Prop :=
  timeouts c' = timeouts c /\ posts c' = posts c
  /\ done c' = done c /\ ticks c' = ticks c.

(** Between the readings number [first] and [bound] the clock does not run
    backwards and advances by less than [window] in all. *)
Definition steadyClock (env : Env) (first bound : nat) (window : Z) : Prop :=
  forall i j : nat, (first <= i)%nat -> (i <= j)%nat -> (j < bound)%nat ->
    Now env i <= Now env j /\ Now env j - Now env i < window.

(** A call of [Get] that is no shutdown, for a key the cache does not answer
    with the nil object and no error. *)
Definition servable (step : Env * (string * bool)) : Prop :=
  snd (snd step) = false
  /\ ~ (exists found, GetByKey (fst step) (fst (snd step)) = (None, found, None)).

(** The controller when the loop of [handlePodUpdate] over [pod] has handled
    the containers [before] and reaches the next one. *)
Definition reached (env : Env) (pod : Pod) (before : list ContainerStatus)
    (c : Controller) : Controller :=
  snd (forRange before (handleContainer env pod) c).

(** [a] is the alert of a crash-looping container among [l]. *)
Definition alertAmong (env : Env) (pod : Pod) (l : list ContainerStatus)
    (a : SlackAttachment) : Prop :=
  exists ct, In ct l /\ isCrashLooping ct /\ a = alertFor env pod ct.

(** [env] with the notifier answering [send] instead. *)
Definition withSendResult (env : Env)
    (send : nat -> SlackAttachment -> option error) : Env :=
  {| Now := Now env; GetByKey := GetByKey env; GetLogs := GetLogs env;
     SendResult := send |}.

(** ** Scenarios: pods, clocks and worlds used to run the controller *)

Module Scenario.

(** A container that is not ready and waits with reason [reason]; its last
    run terminated with ["Error"]. *)
Definition waitingContainer (name reason : string) : ContainerStatus :=
  {| Container_Name := name;
     Ready := false;
     State := {| Waiting := Some {| Waiting_Reason := reason |};
                 Terminated := None |};
     LastTerminationState :=
       {| Waiting := None;
          Terminated := Some {| Terminated_Reason := "Error" |} |} |}.

Definition crashLooping (name : string) : ContainerStatus :=
  waitingContainer name "CrashLoopBackOff".

(** A pod with one crash-looping container, [main]. *)
Definition crashingPod (ns name : string) (annotations : gmap string string)
  : Pod :=
  {| Name := name; Namespace := ns; Annotations := annotations;
     ContainerStatuses := [crashLooping "main"] |}.

Definition optIn : gmap string string :=
  {[ annotationEnableMattermost := annotationEnableMattermostInform ]}.

Definition optInWithBackoff (value : string) : gmap string string :=
  <[ annotationMattermostBackoff := value ]> optIn.

(** June 1, 2019 00:00:00 UTC. *)
Definition T0 : Z := (62135596800 + 1559347200) * time.Second.

(** A clock whose first reading is [start]; every later reading is one
    millisecond after the one before. *)
Definition clockFrom (start : Z) : nat -> Z :=
  fun n => start + Z.of_nat n * 1000000.

(** A world in which the cache holds [items], the clock starts at [start],
    the log fetch answers [logs] and the [n]-th post has outcome [send n]. *)
Definition world (items : gmap string Pod) (start : Z)
    (logs : string * option error) (send : nat -> option error) : Env :=
  {| Now := clockFrom start;
     GetByKey := storeGetByKey items;
     GetLogs := fun _ _ _ => logs;
     SendResult := fun n _ => send n |}.

(** A controller that posted nothing yet and last passed the debounce check
    of the pod named [name] at instant [t]. *)
Definition notifiedAt (name : string) (t : Z) : Controller :=
  mkController {[ name := t ]} ∅ [] [] [] [] 0%nat.

Definition podA : Pod := crashingPod "default" "pod-a" optIn.

(** Two pods named [web], one in namespace [default] and one in [prod],
    each with a crash-looping container and the opt-in annotation. *)
Definition webDefault : Pod := crashingPod "default" "web" optIn.
Definition webProd : Pod := crashingPod "prod" "web" optIn.

(** A cache that holds both, under their namespace/name keys. *)
Definition twoNamespaces : gmap string Pod :=
  {[ "default/web" := webDefault; "prod/web" := webProd ]}.

(** The pod [default/pod-a] with two crash-looping containers. *)
Definition podTwo : Pod :=
  {| Name := "pod-a"; Namespace := "default"; Annotations := optIn;
     ContainerStatuses := [crashLooping "main"; crashLooping "sidecar"] |}.

End Scenario.

(** * Properties *)

(** ** Arithmetic of durations *)

Lemma wrap64_range (z : Z) :
  time.minDuration <= time.wrap64 z <= time.maxDuration.
Proof.
  unfold time.wrap64, time.minDuration, time.maxDuration.
  pose proof (Z.mod_pos_bound (z + 2 ^ 63) (2 ^ 64) ltac:(lia)). lia.
Qed.

Lemma default_window_value :
  annotationMattermostBackoffDefault = 600 * time.Second.
Proof. reflexivity. Qed.

Lemma Sub_exact (t u : Z) :
  time.minDuration <= t - u <= time.maxDuration -> time.Sub t u = t - u.
Proof.
  intros H. unfold time.Sub.
  destruct (Z.ltb_spec (t - u) time.minDuration); [lia|].
  destruct (Z.ltb_spec time.maxDuration (t - u)); [lia|]. reflexivity.
Qed.

Lemma Sub_saturates (t u : Z) :
  time.maxDuration <= t - u -> time.Sub t u = time.maxDuration.
Proof.
  intros H. unfold time.Sub.
  destruct (Z.ltb_spec (t - u) time.minDuration);
    [unfold time.minDuration, time.maxDuration in *; lia|].
  destruct (Z.ltb_spec time.maxDuration (t - u)); lia.
Qed.

Lemma Sub_ge (t u w : Z) :
  w <= time.maxDuration -> w <= t - u -> w <= time.Sub t u.
Proof.
  intros Hw H. unfold time.Sub.
  destruct (Z.ltb_spec (t - u) time.minDuration);
    [unfold time.minDuration, time.maxDuration in *; lia|].
  destruct (Z.ltb_spec time.maxDuration (t - u)); lia.
Qed.

Lemma Sub_lt (t u w : Z) :
  u <= t -> t - u < w -> w <= time.maxDuration -> time.Sub t u < w.
Proof.
  intros Hu H Hw. rewrite Sub_exact; [lia|].
  unfold time.minDuration, time.maxDuration in *. lia.
Qed.

(** ** The cool-down window *)

Lemma backoffWindow_range (pod : Pod) :
  time.minDuration <= backoffWindow pod <= time.maxDuration.
Proof.
  unfold backoffWindow.
  destruct (negb _); [|apply wrap64_range].
  destruct (strconv.Atoi _) as [seconds [e|]]; apply wrap64_range.
Qed.

(** Whenever the annotation parses, the window stays the default. *)
Lemma backoffWindow_parsed (pod : Pod) (seconds : Z) :
  strconv.Atoi (GetAnnotation pod annotationMattermostBackoff) = (seconds, None) ->
  backoffWindow pod = annotationMattermostBackoffDefault.
Proof.
  intros H. unfold backoffWindow. rewrite H. destruct (negb _); reflexivity.
Qed.

(** Whenever the annotation is present and does not parse, the window is
    the value [Atoi] returned beside the error, in seconds. *)
Lemma backoffWindow_unparsed (pod : Pod) (seconds : Z) (e : string) :
  GetAnnotation pod annotationMattermostBackoff <> "" ->
  strconv.Atoi (GetAnnotation pod annotationMattermostBackoff) = (seconds, Some e) ->
  backoffWindow pod = time.mul seconds time.Second.
Proof.
  intros Hne H. unfold backoffWindow. rewrite H.
  destruct (String.eqb_spec (GetAnnotation pod annotationMattermostBackoff) "");
    [contradiction|reflexivity].
Qed.

(** ** The debounce check, step by step *)

Lemma refreshBackoff_unfold (env : Env) (pod : Pod) (ct : ContainerStatus)
    (c : Controller) :
  refreshBackoff env pod ct c =
    if time.Sub (Now env (ticks c)) (lastNotified c (Name pod)) <? backoffWindow pod
    then (Return false, tick c)
    else (Return true,
          mkController (<[Name pod := Now env (S (ticks c))]> (timeouts c))
            (failures c) (delayed c) (done c) (posts c) (handled c)
            (S (S (ticks c)))).
Proof.
  unfold refreshBackoff, time_Since, time_Now, bind, gets, ret, modify, lastNotified.
  simpl. destruct (_ <? _); reflexivity.
Qed.

Lemma refreshBackoff_suppressed (env : Env) (pod : Pod) (ct : ContainerStatus)
    (c : Controller) :
  time.Sub (Now env (ticks c)) (lastNotified c (Name pod)) < backoffWindow pod ->
  refreshBackoff env pod ct c = (Return false, tick c).
Proof.
  intros H. rewrite refreshBackoff_unfold.
  destruct (Z.ltb_spec (time.Sub (Now env (ticks c)) (lastNotified c (Name pod)))
              (backoffWindow pod)); [reflexivity|lia].
Qed.

Lemma refreshBackoff_passed (env : Env) (pod : Pod) (ct : ContainerStatus)
    (c : Controller) :
  backoffWindow pod <= time.Sub (Now env (ticks c)) (lastNotified c (Name pod)) ->
  refreshBackoff env pod ct c =
    (Return true,
     mkController (<[Name pod := Now env (S (ticks c))]> (timeouts c))
       (failures c) (delayed c) (done c) (posts c) (handled c)
       (S (S (ticks c)))).
Proof.
  intros H. rewrite refreshBackoff_unfold.
  destruct (Z.ltb_spec (time.Sub (Now env (ticks c)) (lastNotified c (Name pod)))
              (backoffWindow pod)); [lia|reflexivity].
Qed.

(** The check returns [true] or [false]; it never panics. *)
Lemma refreshBackoff_returns (env : Env) (pod : Pod) (ct : ContainerStatus)
    (c : Controller) :
  exists b, fst (refreshBackoff env pod ct c) = Return b.
Proof.
  rewrite refreshBackoff_unfold. destruct (_ <? _); eexists; reflexivity.
Qed.

(** ** Frame properties: what each step leaves alone *)

Lemma keepsTimestamps_refl (c : Controller) : keepsTimestamps c c.
Proof. intros k H. exact H. Qed.

Lemma keepsTimestamps_trans (c1 c2 c3 : Controller) :
  keepsTimestamps c1 c2 -> keepsTimestamps c2 c3 -> keepsTimestamps c1 c3.
Proof. intros H12 H23 k H. apply H23, H12, H. Qed.

(** A relation between the states before and after that holds for every turn
    of a loop body holds for the whole loop. *)
Lemma forRange_invariant {A} (R : Controller -> Controller -> Prop)
    (body : A -> M unit) :
  (forall c, R c c) ->
  (forall c1 c2 c3, R c1 c2 -> R c2 c3 -> R c1 c3) ->
  (forall x c, R c (snd (body x c))) ->
  forall l c, R c (snd (forRange l body c)).
Proof.
  intros Hrefl Htrans Hbody l. induction l as [|x rest IH]; intros c.
  - apply Hrefl.
  - simpl. unfold bind. specialize (Hbody x c).
    destruct (body x c) as [[[]|msg] c1]; simpl in *.
    + eapply Htrans; [exact Hbody|apply IH].
    + exact Hbody.
Qed.

Lemma refreshBackoff_keepsTimestamps (env : Env) (pod : Pod)
    (ct : ContainerStatus) (c : Controller) :
  keepsTimestamps c (snd (refreshBackoff env pod ct c)).
Proof.
  rewrite refreshBackoff_unfold. intros k Hk.
  destruct (_ <? _); simpl; [exact Hk|].
  destruct (decide (Name pod = k)) as [->|Hne].
  - rewrite lookup_insert_eq. eauto.
  - rewrite lookup_insert_ne by exact Hne. exact Hk.
Qed.

Lemma sendCrashNotification_unfold (env : Env) (pod : Pod)
    (ct : ContainerStatus) (c : Controller) :
  sendCrashNotification env pod ct c =
    (Return tt,
     mkController (timeouts c) (failures c) (delayed c) (done c)
       (posts c ++ [crashAttachment pod ct
                      (fst (GetLogs env (Namespace pod) (Name pod)
                              (Container_Name ct)))])
       (handled c) (ticks c)).
Proof.
  unfold sendCrashNotification.
  destruct (GetLogs env (Namespace pod) (Name pod) (Container_Name ct))
    as [logs err]. reflexivity.
Qed.

Lemma handleContainer_keepsTimestamps (env : Env) (pod : Pod)
    (ct : ContainerStatus) (c : Controller) :
  keepsTimestamps c (snd (handleContainer env pod ct c)).
Proof.
  unfold handleContainer.
  destruct (_ && _ && _); [|apply keepsTimestamps_refl].
  destruct (Waiting (State ct)) as [w|]; [|apply keepsTimestamps_refl].
  destruct (String.eqb _ _); [|apply keepsTimestamps_refl].
  unfold bind. pose proof (refreshBackoff_keepsTimestamps env pod ct c) as H.
  destruct (refreshBackoff env pod ct c) as [[[]|msg] c1]; simpl in *; try exact H.
  rewrite sendCrashNotification_unfold. exact H.
Qed.

Lemma handlePodUpdate_keepsTimestamps (env : Env) (pod : Pod) (c : Controller) :
  keepsTimestamps c (snd (handlePodUpdate env pod c)).
Proof.
  unfold handlePodUpdate.
  apply (forRange_invariant keepsTimestamps);
    [apply keepsTimestamps_refl | apply keepsTimestamps_trans |].
  intros ct c0. apply handleContainer_keepsTimestamps.
Qed.

Lemma handleErr_timeouts (err : option string) (key : string) (c : Controller) :
  timeouts (snd (handleErr err key c)) = timeouts c.
Proof.
  unfold handleErr, NumRequeues, bind, gets. destruct err as [e|]; simpl; [|reflexivity].
  destruct (_ <? _)%nat; reflexivity.
Qed.

(** ** The debounce check (claim C4) *)

(** C4.  The debounce check of [refreshBackoff], for the pod's name as key and
    the pod's window: it returns true on the first evaluation for a name that
    has no stored timestamp (the clock reading any instant since 1970); false
    when evaluated at a reading not before, and strictly within the window
    after, the instant [T] stored by the last passed check; true again when
    the window has elapsed since [T];
    and it stores the reading of the clock exactly when it returns true, and
    leaves the stored timestamps as they were when it returns false. *)
Theorem refreshBackoff_debounce (env : Env) (pod : Pod) (ct : ContainerStatus)
    (c : Controller) :
  let now := Now env (ticks c) in
  let out := refreshBackoff env pod ct c in
  (timeouts c !! Name pod = None -> time.unixEpoch <= now ->
   fst out = Return true)
  /\ (forall T, timeouts c !! Name pod = Some T -> T <= now ->
        now - T < backoffWindow pod -> fst out = Return false)
  /\ (forall T, timeouts c !! Name pod = Some T ->
        backoffWindow pod <= now - T -> fst out = Return true)
  /\ (fst out = Return true ->
      timeouts (snd out) = <[Name pod := Now env (S (ticks c))]> (timeouts c))
  /\ (fst out = Return false -> timeouts (snd out) = timeouts c).
Proof.
  intros now out. subst out now.
  pose proof (backoffWindow_range pod) as [_ Hmax].
  repeat split.
  - intros Hnone Hclock.
    rewrite refreshBackoff_passed; [reflexivity|].
    unfold lastNotified. rewrite Hnone. simpl.
    rewrite Sub_saturates; [exact Hmax|].
    unfold time.zeroTime, time.maxDuration, time.unixEpoch, time.Second in *. lia.
  - intros T HT Hle Hlt.
    rewrite refreshBackoff_suppressed; [reflexivity|].
    unfold lastNotified. rewrite HT. simpl. apply Sub_lt; assumption.
  - intros T HT Hge.
    rewrite refreshBackoff_passed; [reflexivity|].
    unfold lastNotified. rewrite HT. simpl. apply Sub_ge; assumption.
  - rewrite refreshBackoff_unfold. destruct (_ <? _); simpl; [discriminate|reflexivity].
  - rewrite refreshBackoff_unfold. destruct (_ <? _); simpl; [reflexivity|discriminate].
Qed.

(** The scenario of the specification: an alert at [T0]; one minute later the
    check suppresses; eleven minutes later it passes again. *)
Lemma refreshBackoff_debounce_witness :
  fst (refreshBackoff (Scenario.world ∅ Scenario.T0 ("", None) (fun _ => None))
         Scenario.podA (Scenario.crashLooping "main") NewController)
    = Return true
  /\ fst (refreshBackoff
            (Scenario.world ∅ (Scenario.T0 + 1 * time.Minute) ("", None)
               (fun _ => None))
            Scenario.podA (Scenario.crashLooping "main")
            (Scenario.notifiedAt "pod-a" Scenario.T0))
    = Return false
  /\ fst (refreshBackoff
            (Scenario.world ∅ (Scenario.T0 + 11 * time.Minute) ("", None)
               (fun _ => None))
            Scenario.podA (Scenario.crashLooping "main")
            (Scenario.notifiedAt "pod-a" Scenario.T0))
    = Return true.
Proof.
  split; [|split].
  - apply (refreshBackoff_debounce
             (Scenario.world ∅ Scenario.T0 ("", None) (fun _ => None))
             Scenario.podA (Scenario.crashLooping "main") NewController).
    + reflexivity.
    + vm_compute. discriminate.
  - apply (refreshBackoff_debounce
             (Scenario.world ∅ (Scenario.T0 + 1 * time.Minute) ("", None)
                (fun _ => None))
             Scenario.podA (Scenario.crashLooping "main")
             (Scenario.notifiedAt "pod-a" Scenario.T0))
      with (T := Scenario.T0).
    + reflexivity.
    + vm_compute. discriminate.
    + vm_compute. reflexivity.
  - apply (refreshBackoff_debounce
             (Scenario.world ∅ (Scenario.T0 + 11 * time.Minute) ("", None)
                (fun _ => None))
             Scenario.podA (Scenario.crashLooping "main")
             (Scenario.notifiedAt "pod-a" Scenario.T0))
      with (T := Scenario.T0).
    + reflexivity.
    + vm_compute. discriminate.
Defined.

(** ** The backoff override (claims C1 and C2) *)

(** The values [Atoi] returns beside an error: 0 for a syntax error, the
    nearest [int64] for a range error. *)
Lemma Atoi_error_values (s : string) (v : Z) (e : string) :
  strconv.Atoi s = (v, Some e) -> v = 0 \/ v = 2 ^ 63 - 1 \/ v = - 2 ^ 63.
Proof.
  unfold strconv.Atoi, strconv.ParseInt.
  destruct s as [|a rest]; [intros H; inversion H; auto|].
  destruct (strconv.ParseUint _) as [un [err|]] eqn:Hun.
  - destruct (String.eqb err strconv.ErrRange).
    + destruct (Ascii.eqb a "-"); intros H; inversion H; auto.
    + intros H; inversion H; auto.
  - destruct (negb _ && _); [intros H; inversion H; auto|].
    destruct (_ && _); intros H; inversion H; auto.
Qed.

(** A present annotation that does not parse never gives the default: the
    window is zero, or minus one second when the digits overflow. *)
Lemma backoffWindow_malformed (pod : Pod) (v : Z) (e : string) :
  GetAnnotation pod annotationMattermostBackoff <> "" ->
  strconv.Atoi (GetAnnotation pod annotationMattermostBackoff) = (v, Some e) ->
  backoffWindow pod = 0 \/ backoffWindow pod = - time.Second.
Proof.
  intros Hne H. rewrite (backoffWindow_unparsed pod v e Hne H).
  destruct (Atoi_error_values _ _ _ H) as [->|[->| ->]]; vm_compute; auto.
Qed.

(** With such an annotation the check passes at every reading of the clock
    that is not before the stored timestamp: nothing is ever suppressed. *)
Lemma refreshBackoff_malformed_passes (env : Env) (pod : Pod)
    (ct : ContainerStatus) (c : Controller) (v : Z) (e : string) :
  GetAnnotation pod annotationMattermostBackoff <> "" ->
  strconv.Atoi (GetAnnotation pod annotationMattermostBackoff) = (v, Some e) ->
  lastNotified c (Name pod) <= Now env (ticks c) ->
  fst (refreshBackoff env pod ct c) = Return true.
Proof.
  intros Hne H Hclock. rewrite refreshBackoff_passed; [reflexivity|].
  apply Sub_ge; [apply backoffWindow_range|].
  destruct (backoffWindow_malformed pod v e Hne H) as [-> | ->];
    unfold time.Second; lia.
Qed.

(** C1.  A pod whose backoff annotation is the well-formed integer ["60"],
    last alerted at [T0], checked two minutes later: [Atoi] succeeds, the
    window is the ten-minute default and not sixty seconds, and the check
    suppresses although sixty seconds have long elapsed. *)
Theorem valid_backoff_override_not_honoured :
  let pod := Scenario.crashingPod "default" "pod-a"
               (Scenario.optInWithBackoff "60") in
  let env := Scenario.world {[ "default/pod-a" := pod ]}
               (Scenario.T0 + 2 * time.Minute) ("", None) (fun _ => None) in
  let c := Scenario.notifiedAt "pod-a" Scenario.T0 in
  strconv.Atoi "60" = (60, None)
  /\ backoffWindow pod = 10 * time.Minute
  /\ backoffWindow pod <> 60 * time.Second
  /\ refreshBackoff env pod (Scenario.crashLooping "main") c
     = (Return false, tick c).
Proof.
  repeat split; try (vm_compute; reflexivity).
  vm_compute. discriminate.
Qed.

(** C2.  A pod whose backoff annotation is the non-numeric ["ten"], last
    alerted at [T0], checked one minute later: [Atoi] fails with value 0, the
    window is zero and not the ten-minute default, and the check passes (and
    stores the new reading of the clock) although ten minutes have not
    elapsed; nothing panics. *)
Theorem malformed_backoff_override_zero_window :
  let pod := Scenario.crashingPod "default" "pod-a"
               (Scenario.optInWithBackoff "ten") in
  let env := Scenario.world {[ "default/pod-a" := pod ]}
               (Scenario.T0 + 1 * time.Minute) ("", None) (fun _ => None) in
  let c := Scenario.notifiedAt "pod-a" Scenario.T0 in
  strconv.Atoi "ten" = (0, Some strconv.ErrSyntax)
  /\ backoffWindow pod = 0
  /\ backoffWindow pod <> annotationMattermostBackoffDefault
  /\ fst (refreshBackoff env pod (Scenario.crashLooping "main") c) = Return true
  /\ timeouts (snd (refreshBackoff env pod (Scenario.crashLooping "main") c))
     = {[ "pod-a" := Scenario.T0 + 1 * time.Minute + 1000000 ]}.
Proof.
  repeat split; try (vm_compute; reflexivity).
  vm_compute. discriminate.
Qed.

(** ** The delete path (claim C3) *)

Lemma storeGetByKey_absent (items : gmap string Pod) (key : string) :
  items !! key = None -> storeGetByKey items key = (None, false, None).
Proof. intros H. unfold storeGetByKey. rewrite H. reflexivity. Qed.

(** When the cache answers "absent" with the nil object, the pass panics at
    the type assertion, before [clearTimeout] runs. *)
Lemma syncToStdout_absent_panics (env : Env) (key : string) (c : Controller) :
  GetByKey env key = (None, false, None) ->
  syncToStdout env key c
  = (Panic "interface conversion: interface {} is nil, not *v1.Pod", c).
Proof. intros H. unfold syncToStdout. rewrite H. reflexivity. Qed.

(** C3.  The pod [default/pod-a] was alerted at [T0] and has since been
    deleted from the cache.  The reconciliation pass for its key panics at the
    assertion of the nil object to a pod: it does not return nil, and the
    timestamp of [pod-a] is still stored after the pass. *)
Theorem delete_path_panics :
  let env := Scenario.world ∅ (Scenario.T0 + 1 * time.Minute) ("", None)
               (fun _ => None) in
  let c := Scenario.notifiedAt "pod-a" Scenario.T0 in
  GetByKey env "default/pod-a" = (None, false, None)
  /\ syncToStdout env "default/pod-a" c
     = (Panic "interface conversion: interface {} is nil, not *v1.Pod", c)
  /\ fst (processNextItem env ("default/pod-a", false) c)
     = Panic "interface conversion: interface {} is nil, not *v1.Pod"
  /\ timeouts (snd (processNextItem env ("default/pod-a", false) c)) !! "pod-a"
     = Some Scenario.T0.
Proof.
  cbv zeta. split; [reflexivity|]. split.
  - apply syncToStdout_absent_panics. reflexivity.
  - split; vm_compute; reflexivity.
Qed.

(** ** The error handler (claim C5) *)

Lemma handleErr_nil (key : string) (c : Controller) :
  handleErr None key c
  = (Return tt,
     mkController (timeouts c) (delete key (failures c)) (delayed c) (done c)
       (posts c) (handled c) (ticks c)).
Proof. reflexivity. Qed.

Lemma handleErr_retry (e key : string) (c : Controller) :
  (requeues c key < 5)%nat ->
  handleErr (Some e) key c
  = (Return tt,
     mkController (timeouts c) (<[key := S (requeues c key)]> (failures c))
       (delayed c ++ [key]) (done c) (posts c) (handled c) (ticks c)).
Proof.
  intros H. unfold handleErr, NumRequeues, bind, gets. fold (requeues c key).
  destruct (Nat.ltb_spec (requeues c key) 5); [reflexivity|lia].
Qed.

Lemma handleErr_drop (e key : string) (c : Controller) :
  (5 <= requeues c key)%nat ->
  handleErr (Some e) key c
  = (Return tt,
     mkController (timeouts c) (delete key (failures c)) (delayed c) (done c)
       (posts c) (handled c ++ [e]) (ticks c)).
Proof.
  intros H. unfold handleErr, NumRequeues, bind, gets. fold (requeues c key).
  destruct (Nat.ltb_spec (requeues c key) 5); [lia|reflexivity].
Qed.

Lemma requeues_insert (c : Controller) (key : string) (n : nat)
    (tm : gmap string Z) (dl dn : list string) (ps : list SlackAttachment)
    (hd : list string) (tk : nat) :
  requeues (mkController tm (<[key := n]> (failures c)) dl dn ps hd tk) key = n.
Proof. unfold requeues. simpl. rewrite lookup_insert_eq. reflexivity. Qed.

Lemma requeues_delete (c : Controller) (key : string)
    (tm : gmap string Z) (dl dn : list string) (ps : list SlackAttachment)
    (hd : list string) (tk : nat) :
  requeues (mkController tm (delete key (failures c)) dl dn ps hd tk) key = 0%nat.
Proof. unfold requeues. simpl. rewrite lookup_delete_eq. reflexivity. Qed.

(** Up to five failures in a row, starting from a count of zero: each one
    is scheduled again and counted, none is reported. *)
Lemma afterFailures_retries (errs : list string) (key : string) (c : Controller) :
  requeues c key = 0%nat -> (length errs <= 5)%nat ->
  requeues (afterFailures errs key c) key = length errs
  /\ delayed (afterFailures errs key c) = delayed c ++ repeat key (length errs)
  /\ handled (afterFailures errs key c) = handled c.
Proof.
  intros H0. induction errs as [|e errs IH] using rev_ind; intros Hlen.
  - simpl. rewrite H0, app_nil_r. auto.
  - rewrite length_app in *. simpl in *.
    destruct IH as (Hn & Hd & Hh); [lia|].
    unfold afterFailures in *. rewrite fold_left_app. cbn [fold_left].
    rewrite handleErr_retry by lia. cbn [snd delayed handled].
    rewrite requeues_insert, Hn, Hd, Hh.
    repeat split; [lia|].
    rewrite repeat_app. simpl. rewrite app_assoc. reflexivity.
Qed.

(** C5.  The error handler on a failed reconciliation of [key]: while the
    requeue count is below 5 it schedules the key again with
    [AddRateLimited], which counts the failure, and reports nothing; at a
    count of 5 or more it forgets the count, hands the error to the error
    reporter and schedules nothing.  So from a count of zero the first five
    failures in a row are retried, and the sixth resets the count, is reported
    and is not retried.  On a nil error it forgets the count and does nothing
    else. *)
Theorem handleErr_retry_ceiling (e key : string) (c : Controller) :
  let failed := snd (handleErr (Some e) key c) in
  let synced := snd (handleErr None key c) in
  ((requeues c key < 5)%nat ->
     requeues failed key = S (requeues c key)
     /\ delayed failed = delayed c ++ [key] /\ handled failed = handled c)
  /\ ((5 <= requeues c key)%nat ->
     requeues failed key = 0%nat
     /\ delayed failed = delayed c /\ handled failed = handled c ++ [e])
  /\ (requeues synced key = 0%nat
      /\ delayed synced = delayed c /\ handled synced = handled c)
  /\ (requeues c key = 0%nat ->
      (forall errs, (length errs <= 5)%nat ->
         requeues (afterFailures errs key c) key = length errs
         /\ delayed (afterFailures errs key c)
            = delayed c ++ repeat key (length errs)
         /\ handled (afterFailures errs key c) = handled c)
      /\ (forall errs, length errs = 5%nat ->
         requeues (afterFailures (errs ++ [e]) key c) key = 0%nat
         /\ delayed (afterFailures (errs ++ [e]) key c)
            = delayed c ++ repeat key 5
         /\ handled (afterFailures (errs ++ [e]) key c) = handled c ++ [e])).
Proof.
  cbv zeta. split; [|split; [|split]].
  - intros H. rewrite handleErr_retry by exact H. simpl.
    rewrite requeues_insert. auto.
  - intros H. rewrite handleErr_drop by exact H. simpl.
    rewrite requeues_delete. auto.
  - rewrite handleErr_nil. simpl. rewrite requeues_delete. auto.
  - intros H0. split.
    + intros errs Hlen. apply afterFailures_retries; assumption.
    + intros errs Hlen.
      destruct (afterFailures_retries errs key c H0) as (Hn & Hd & Hh); [lia|].
      unfold afterFailures in *. rewrite fold_left_app. cbn [fold_left].
      rewrite handleErr_drop by lia. cbn [snd delayed handled].
      rewrite requeues_delete, Hd, Hh, Hlen. auto.
Qed.

(** Six failures in a row of the key [default/pod-a] on a new controller:
    five retries, then the drop. *)
Lemma handleErr_retry_ceiling_witness :
  let errs := ["e1"; "e2"; "e3"; "e4"; "e5"] in
  requeues (afterFailures errs "default/pod-a" NewController) "default/pod-a"
    = 5%nat
  /\ requeues (afterFailures (errs ++ ["e6"]) "default/pod-a" NewController)
       "default/pod-a" = 0%nat
  /\ delayed (afterFailures (errs ++ ["e6"]) "default/pod-a" NewController)
     = repeat "default/pod-a" 5
  /\ handled (afterFailures (errs ++ ["e6"]) "default/pod-a" NewController)
     = ["e6"].
Proof.
  cbv zeta.
  destruct (handleErr_retry_ceiling "e6" "default/pod-a" NewController)
    as (_ & _ & _ & Hrun).
  destruct (Hrun eq_refl) as (Hretry & Hdrop).
  split.
  - apply (Hretry ["e1"; "e2"; "e3"; "e4"; "e5"]). simpl. lia.
  - apply (Hdrop ["e1"; "e2"; "e3"; "e4"; "e5"]). reflexivity.
Defined.

(** ** One container, one pod, one pass *)

Lemma isCrashLooping_dec (ct : ContainerStatus) :
  {isCrashLooping ct} + {~ isCrashLooping ct}.
Proof.
  unfold isCrashLooping.
  destruct (Ready ct); [right; intros [H _]; discriminate|].
  destruct (Waiting (State ct)) as [w|];
    [|right; intros [_ (w & H & _)]; discriminate].
  destruct (String.eqb_spec (Waiting_Reason w) "CrashLoopBackOff") as [He|Hne].
  - left. eauto.
  - right. intros [_ (w' & Hw & Hr)]. inversion Hw; subst. contradiction.
Qed.

(** The loop body, case by case. *)
Lemma handleContainer_alert (env : Env) (pod : Pod) (ct : ContainerStatus)
    (c : Controller) :
  isCrashLooping ct -> optedIn pod -> debouncePasses env pod c ->
  handleContainer env pod ct c
  = (Return tt,
     mkController (<[Name pod := Now env (S (ticks c))]> (timeouts c))
       (failures c) (delayed c) (done c) (posts c ++ [alertFor env pod ct])
       (handled c) (S (S (ticks c)))).
Proof.
  intros (Hready & w & Hw & Hreason) Hopt Hpass.
  unfold handleContainer, hasValidAnnotation.
  unfold optedIn in Hopt. rewrite Hready, Hw, Hopt, Hreason. simpl.
  unfold bind. rewrite refreshBackoff_passed by exact Hpass. simpl.
  rewrite sendCrashNotification_unfold. reflexivity.
Qed.

Lemma handleContainer_suppressed (env : Env) (pod : Pod) (ct : ContainerStatus)
    (c : Controller) :
  isCrashLooping ct -> optedIn pod -> ~ debouncePasses env pod c ->
  handleContainer env pod ct c = (Return tt, tick c).
Proof.
  intros (Hready & w & Hw & Hreason) Hopt Hpass.
  unfold handleContainer, hasValidAnnotation.
  unfold optedIn in Hopt. rewrite Hready, Hw, Hopt, Hreason. simpl.
  unfold bind. rewrite refreshBackoff_suppressed; [reflexivity|].
  unfold debouncePasses in Hpass. lia.
Qed.

Lemma handleContainer_not_opted_in (env : Env) (pod : Pod)
    (ct : ContainerStatus) (c : Controller) :
  ~ optedIn pod -> handleContainer env pod ct c = (Return tt, c).
Proof.
  intros Hopt. unfold handleContainer, hasValidAnnotation.
  destruct (String.eqb_spec (GetAnnotation pod annotationEnableMattermost)
              annotationEnableMattermostInform) as [He|_]; [contradiction|].
  rewrite andb_false_r. reflexivity.
Qed.

Lemma handleContainer_not_crashlooping (env : Env) (pod : Pod)
    (ct : ContainerStatus) (c : Controller) :
  ~ isCrashLooping ct -> handleContainer env pod ct c = (Return tt, c).
Proof.
  intros Hcl. unfold handleContainer, isCrashLooping in *.
  destruct (Ready ct); [reflexivity|].
  destruct (Waiting (State ct)) as [w|]; [|reflexivity].
  destruct (String.eqb_spec (Waiting_Reason w) "CrashLoopBackOff") as [He|_].
  - exfalso. apply Hcl. eauto.
  - destruct (_ && _ && _); reflexivity.
Qed.

(** The loop body always returns; its only panic is behind the nil guard. *)
Lemma handleContainer_returns (env : Env) (pod : Pod) (ct : ContainerStatus)
    (c : Controller) :
  fst (handleContainer env pod ct c) = Return tt.
Proof.
  destruct (isCrashLooping_dec ct) as [Hcl|Hcl];
    [|rewrite handleContainer_not_crashlooping by exact Hcl; reflexivity].
  destruct (String.eqb_spec (GetAnnotation pod annotationEnableMattermost)
              annotationEnableMattermostInform) as [Hopt|Hopt];
    [|rewrite handleContainer_not_opted_in by exact Hopt; reflexivity].
  destruct (Z_le_gt_dec (backoffWindow pod)
              (time.Sub (Now env (ticks c)) (lastNotified c (Name pod))))
    as [Hp|Hp].
  - rewrite handleContainer_alert by assumption. reflexivity.
  - rewrite handleContainer_suppressed; [reflexivity|assumption|assumption|].
    unfold debouncePasses. lia.
Qed.

Lemma forRange_returns {A} (body : A -> M unit) :
  (forall x c, fst (body x c) = Return tt) ->
  forall l c, fst (forRange l body c) = Return tt.
Proof.
  intros Hbody l. induction l as [|x rest IH]; intros c; [reflexivity|].
  simpl. unfold bind. specialize (Hbody x c).
  destruct (body x c) as [[[]|msg] c1]; simpl in *; [apply IH|discriminate].
Qed.

Lemma handlePodUpdate_returns (env : Env) (pod : Pod) (c : Controller) :
  fst (handlePodUpdate env pod c) = Return tt.
Proof.
  unfold handlePodUpdate. apply forRange_returns.
  intros ct c0. apply handleContainer_returns.
Qed.

Lemma sameQueue_refl (c : Controller) : sameQueue c c.
Proof. unfold sameQueue. auto. Qed.

Lemma sameQueue_trans (c1 c2 c3 : Controller) :
  sameQueue c1 c2 -> sameQueue c2 c3 -> sameQueue c1 c3.
Proof. unfold sameQueue. intros (?&?&?&?) (?&?&?&?). repeat split; congruence. Qed.

Lemma handleContainer_sameQueue (env : Env) (pod : Pod) (ct : ContainerStatus)
    (c : Controller) :
  sameQueue c (snd (handleContainer env pod ct c)).
Proof.
  destruct (isCrashLooping_dec ct) as [Hcl|Hcl];
    [|rewrite handleContainer_not_crashlooping by exact Hcl; apply sameQueue_refl].
  destruct (String.eqb_spec (GetAnnotation pod annotationEnableMattermost)
              annotationEnableMattermostInform) as [Hopt|Hopt];
    [|rewrite handleContainer_not_opted_in by exact Hopt; apply sameQueue_refl].
  destruct (Z_le_gt_dec (backoffWindow pod)
              (time.Sub (Now env (ticks c)) (lastNotified c (Name pod))))
    as [Hp|Hp].
  - rewrite handleContainer_alert by assumption. unfold sameQueue. simpl. auto.
  - rewrite handleContainer_suppressed; [unfold sameQueue; simpl; auto
                                        |assumption|assumption|].
    unfold debouncePasses. lia.
Qed.

Lemma handlePodUpdate_sameQueue (env : Env) (pod : Pod) (c : Controller) :
  sameQueue c (snd (handlePodUpdate env pod c)).
Proof.
  unfold handlePodUpdate.
  apply (forRange_invariant sameQueue);
    [apply sameQueue_refl | apply sameQueue_trans |].
  intros ct c0. apply handleContainer_sameQueue.
Qed.

(** A pod without the opt-in annotation: the pass over its containers does
    nothing at all. *)
Lemma handlePodUpdate_not_opted_in (env : Env) (pod : Pod) (c : Controller) :
  ~ optedIn pod -> handlePodUpdate env pod c = (Return tt, c).
Proof.
  intros Hopt. unfold handlePodUpdate.
  induction (ContainerStatuses pod) as [|ct rest IH]; [reflexivity|].
  simpl. unfold bind. rewrite handleContainer_not_opted_in by exact Hopt.
  exact IH.
Qed.

Lemma syncToStdout_cache_error (env : Env) (key : string) (c : Controller)
    (obj : option Pod) (found : bool) (e : string) :
  GetByKey env key = (obj, found, Some e) ->
  syncToStdout env key c = (Return (Some e), c).
Proof. intros H. unfold syncToStdout. rewrite H. reflexivity. Qed.

Lemma syncToStdout_present (env : Env) (key : string) (c : Controller)
    (pod : Pod) :
  GetByKey env key = (Some pod, true, None) ->
  syncToStdout env key c = (Return None, snd (handlePodUpdate env pod c)).
Proof.
  intros H. unfold syncToStdout. rewrite H. simpl. unfold bind, ret. simpl.
  pose proof (handlePodUpdate_returns env pod c) as Hr.
  destruct (handlePodUpdate env pod c) as [[[]|msg] c1]; simpl in *;
    [reflexivity|discriminate].
Qed.

(** A pass for a key the cache reports present removes no timestamp. *)
Lemma processNextItem_keepsTimestamps (env : Env) (key : string)
    (c : Controller) (obj : option Pod) (err : option string) :
  GetByKey env key = (obj, true, err) ->
  keepsTimestamps c (snd (processNextItem env (key, false) c)).
Proof.
  intros H k Hk.
  assert (Hsync : keepsTimestamps c (snd (syncToStdout env key c))).
  { destruct err as [e|]; [|destruct obj as [pod|]].
    - rewrite (syncToStdout_cache_error env key c obj true e H).
      apply keepsTimestamps_refl.
    - rewrite (syncToStdout_present env key c pod H).
      apply handlePodUpdate_keepsTimestamps.
    - unfold syncToStdout. rewrite H. apply keepsTimestamps_refl. }
  specialize (Hsync k Hk).
  unfold processNextItem, defer, bind.
  destruct (syncToStdout env key c) as [[r|msg] c1]; cbn [snd] in *.
  - pose proof (handleErr_timeouts r key c1) as Herr.
    destruct (handleErr r key c1) as [[[]|msg] c2]; cbn [snd] in *;
      unfold Done, modify, ret; cbn [snd timeouts]; rewrite ?Herr; exact Hsync.
  - unfold Done, modify; cbn [snd timeouts]. exact Hsync.
Qed.

(** ** Errors of the notifier (claim C6) *)

(** The answer of the notifier reaches nothing: [SendAttachements] is called
    for its effect and its result is dropped, so a pass in a world where the
    notifier answers otherwise ends in the same state with the same result. *)
Lemma sendCrashNotification_ignores_result (env : Env)
    (send : nat -> SlackAttachment -> option string) (pod : Pod)
    (ct : ContainerStatus) (c : Controller) :
  sendCrashNotification (withSendResult env send) pod ct c
  = sendCrashNotification env pod ct c.
Proof. rewrite !sendCrashNotification_unfold. reflexivity. Qed.

Lemma handleContainer_ignores_result (env : Env)
    (send : nat -> SlackAttachment -> option string) (pod : Pod)
    (ct : ContainerStatus) (c : Controller) :
  handleContainer (withSendResult env send) pod ct c
  = handleContainer env pod ct c.
Proof.
  unfold handleContainer.
  destruct (_ && _ && _); [|reflexivity].
  destruct (Waiting (State ct)) as [w|]; [|reflexivity].
  destruct (String.eqb _ _); [|reflexivity].
  unfold bind. rewrite !refreshBackoff_unfold. cbn [Now withSendResult].
  destruct (_ <? _); cbn [negb]; [reflexivity|].
  apply sendCrashNotification_ignores_result.
Qed.

Lemma forRange_ext {A} (f g : A -> M unit) :
  (forall x c, f x c = g x c) ->
  forall l c, forRange l f c = forRange l g c.
Proof.
  intros Hfg l. induction l as [|x rest IH]; intros c; [reflexivity|].
  simpl. unfold bind. rewrite Hfg.
  destruct (g x c) as [[[]|msg] c1]; [apply IH|reflexivity].
Qed.

Lemma processNextItem_ignores_result (env : Env)
    (send : nat -> SlackAttachment -> option string) (got : string * bool)
    (c : Controller) :
  processNextItem (withSendResult env send) got c = processNextItem env got c.
Proof.
  assert (Hsync : forall key,
             syncToStdout (withSendResult env send) key c
             = syncToStdout env key c).
  { intros key. unfold syncToStdout. cbn [GetByKey withSendResult].
    destruct (GetByKey env key) as [[obj found] [e|]]; [reflexivity|].
    destruct found; cbn [negb]; [|reflexivity].
    unfold bind. destruct obj as [pod|]; [|reflexivity].
    cbn [assertPod ret]. unfold handlePodUpdate.
    rewrite (forRange_ext _ _ (handleContainer_ignores_result env send pod)).
    reflexivity. }
  destruct got as [key [|]]; [reflexivity|].
  unfold processNextItem, defer, bind. rewrite Hsync. reflexivity.
Qed.

(** For every pass: an error of the cache lookup is returned by the
    business-logic step as it is, the state untouched; when the cache holds
    the pod, the step returns nil whatever the notifier answers, the pass
    completes, and the error handler leaves the key with a requeue count of
    zero, schedules no retry and reports no error. *)
Lemma sync_returns_cache_errors_only (env : Env) (key : string)
    (c : Controller) :
  (forall obj found e, GetByKey env key = (obj, found, Some e) ->
     syncToStdout env key c = (Return (Some e), c))
  /\ (forall pod, GetByKey env key = (Some pod, true, None) ->
        fst (syncToStdout env key c) = Return None
        /\ fst (processNextItem env (key, false) c) = Return true
        /\ requeues (snd (processNextItem env (key, false) c)) key = 0%nat
        /\ delayed (snd (processNextItem env (key, false) c)) = delayed c
        /\ handled (snd (processNextItem env (key, false) c)) = handled c).
Proof.
  split.
  - intros obj found e H. exact (syncToStdout_cache_error env key c obj found e H).
  - intros pod H.
    pose proof (syncToStdout_present env key c pod H) as Hsync.
    destruct (handlePodUpdate_sameQueue env pod c) as (Hf & Hd & Hh & Hdone).
    unfold processNextItem, defer, bind. rewrite Hsync. simpl.
    unfold requeues. simpl. rewrite lookup_delete_eq. auto.
Qed.

(** C6.  The scenario of the claim: the pod [default/pod-a] is opted in and
    crash-loops, and the notifier fails with "connection refused" on its first
    three calls and succeeds from the fourth on.  The first pass attempts the
    post, the post fails, and the business-logic step returns nil all the
    same: the error handler schedules no retry, reports nothing and leaves
    the count at zero.  The debounce timestamp was stored before the post, so
    a second pass right after posts nothing either.  The one post ever
    attempted is the failed one: no alert is delivered, and the outcome is the
    same as in the world where the notifier never fails. *)
Theorem failed_post_returns_nil :
  let send := fun (n : nat) (_ : SlackAttachment) =>
                if (n <? 3)%nat then Some "connection refused" else None in
  let env := withSendResult
               (Scenario.world {[ "default/pod-a" := Scenario.podA ]}
                  Scenario.T0 ("", None) (fun _ => None)) send in
  let key := "default/pod-a" in
  let alert := alertFor env Scenario.podA (Scenario.crashLooping "main") in
  let c1 := snd (processNextItem env (key, false) NewController) in
  let c2 := snd (processNextItem env (key, false) c1) in
  SendResult env 0 alert = Some "connection refused"
  /\ SendResult env 3 alert = None
  /\ fst (syncToStdout env key NewController) = Return None
  /\ posts c1 = [alert]
  /\ delayed c1 = [] /\ handled c1 = [] /\ requeues c1 key = 0%nat
  /\ posts c2 = [alert] /\ delayed c2 = []
  /\ c1 = snd (processNextItem
                 (Scenario.world {[ "default/pod-a" := Scenario.podA ]}
                    Scenario.T0 ("", None) (fun _ => None))
                 (key, false) NewController).
Proof.
  cbv zeta. repeat split; vm_compute; reflexivity.
Qed.

(** ** One turn of the loop *)

(** At a container's turn the loop body posts the container's alert when the
    container crash-loops, the pod is opted in and the debounce check passes
    at that turn, and posts nothing otherwise. *)
Lemma handleContainer_posts (env : Env) (pod : Pod) (ct : ContainerStatus)
    (c : Controller) :
  (isCrashLooping ct /\ optedIn pod /\ debouncePasses env pod c ->
     posts (snd (handleContainer env pod ct c)) = posts c ++ [alertFor env pod ct])
  /\ (~ (isCrashLooping ct /\ optedIn pod /\ debouncePasses env pod c) ->
     posts (snd (handleContainer env pod ct c)) = posts c).
Proof.
  split.
  - intros (Hcl & Hopt & Hpass).
    rewrite handleContainer_alert by assumption. reflexivity.
  - intros Hnot.
    destruct (isCrashLooping_dec ct) as [Hcl|Hcl];
      [|rewrite handleContainer_not_crashlooping by exact Hcl; reflexivity].
    destruct (String.eqb_spec (GetAnnotation pod annotationEnableMattermost)
                annotationEnableMattermostInform) as [Hopt|Hopt];
      [|rewrite handleContainer_not_opted_in by exact Hopt; reflexivity].
    rewrite handleContainer_suppressed; [reflexivity|assumption|assumption|].
    intros Hpass. apply Hnot. auto.
Qed.

(** ** What the debounce state is indexed by (claim C8) *)

(** C8, as stated, fails.  Two opted-in pods are both named [web], one in
    namespace [default], one in [prod], and both crash-loop.  The pass for
    [default/web] alerts and stores the timestamp under [web]; the pass for
    [prod/web] right after finds that timestamp and posts nothing, although on
    a fresh controller it would alert: the two pods share one record. *)
Lemma same_name_shares_debounce_record :
  let env := Scenario.world Scenario.twoNamespaces Scenario.T0 ("", None)
               (fun _ => None) in
  let c1 := snd (processNextItem env ("default/web", false) NewController) in
  let c2 := snd (processNextItem env ("prod/web", false) c1) in
  Name Scenario.webDefault = Name Scenario.webProd
  /\ Namespace Scenario.webDefault = "default"
  /\ Namespace Scenario.webProd = "prod"
  /\ posts c1 = [alertFor env Scenario.webDefault (Scenario.crashLooping "main")]
  /\ posts c2 = posts c1
  /\ timeouts c2 = {[ "web" := Scenario.T0 + 1000000 ]}
  /\ posts (snd (processNextItem env ("prod/web", false) NewController))
     = [alertFor env Scenario.webProd (Scenario.crashLooping "main")].
Proof. cbv zeta. repeat split; vm_compute; reflexivity. Qed.

(** C8, amended.  The debounce state is indexed by the pod's name alone.  Two
    pods of the same name (and the same window) get the same answer from the
    check and the same state after it, and clearing the one clears the other,
    whatever their namespaces; the check and the clearing for one pod leave
    the record of every pod of another name as it was. *)
Theorem debounce_keyed_by_pod_name (env : Env) (pod1 pod2 : Pod)
    (ct1 ct2 : ContainerStatus) (c : Controller) :
  (Name pod1 = Name pod2 -> backoffWindow pod1 = backoffWindow pod2 ->
     refreshBackoff env pod1 ct1 c = refreshBackoff env pod2 ct2 c)
  /\ (Name pod1 = Name pod2 -> clearTimeout pod1 c = clearTimeout pod2 c)
  /\ (Name pod1 <> Name pod2 ->
      timeouts (snd (refreshBackoff env pod1 ct1 c)) !! Name pod2
        = timeouts c !! Name pod2
      /\ timeouts (snd (clearTimeout pod1 c)) !! Name pod2
        = timeouts c !! Name pod2).
Proof.
  split; [|split].
  - intros Hname Hwin. rewrite !refreshBackoff_unfold, Hname, Hwin. reflexivity.
  - intros Hname. unfold clearTimeout. rewrite Hname. reflexivity.
  - intros Hne. split.
    + rewrite refreshBackoff_unfold. destruct (_ <? _); simpl; [reflexivity|].
      apply lookup_insert_ne. exact Hne.
    + simpl. apply lookup_delete_ne. exact Hne.
Qed.

(** The two pods named [web]: the check answers the same for both. *)
Lemma debounce_keyed_by_pod_name_witness :
  let env := Scenario.world Scenario.twoNamespaces
               (Scenario.T0 + 1 * time.Minute) ("", None) (fun _ => None) in
  let c := Scenario.notifiedAt "web" Scenario.T0 in
  refreshBackoff env Scenario.webDefault (Scenario.crashLooping "main") c
  = refreshBackoff env Scenario.webProd (Scenario.crashLooping "main") c.
Proof.
  cbv zeta.
  apply (debounce_keyed_by_pod_name
           (Scenario.world Scenario.twoNamespaces
              (Scenario.T0 + 1 * time.Minute) ("", None) (fun _ => None))
           Scenario.webDefault Scenario.webProd
           (Scenario.crashLooping "main") (Scenario.crashLooping "main")
           (Scenario.notifiedAt "web" Scenario.T0)).
  - reflexivity.
  - reflexivity.
Defined.

(** ** A failed log fetch (claim C9) *)

(** C9, as stated, fails.  The log fetch fails and hands back bytes beside
    its error, as the API server's answer to a rejected request does.  The
    alert is sent, and its [Logs] field holds those bytes: it is not empty. *)
Lemma failed_log_fetch_bytes_are_posted :
  let env := Scenario.world {[ "default/pod-a" := Scenario.podA ]} Scenario.T0
               ("previous terminated container not found",
                Some "the server rejected our request")
               (fun _ => None) in
  snd (GetLogs env "default" "pod-a" "main")
    = Some "the server rejected our request"
  /\ posts (snd (sendCrashNotification env Scenario.podA
                   (Scenario.crashLooping "main") NewController))
     = [ {| Color := "#AD2200";
            Text := "Container main of pod pod-a keeps crashing, maybe its time to intervene.";
            Title := "Crash loop detected!";
            Fields :=
              [ {| Field_Title := "Logs";
                   Field_Value :=
                     "```" +:+ LF
                     +:+ "previous terminated container not found" +:+ "```" |};
                {| Field_Title := "Reason"; Field_Value := "Error" |} ] |} ].
Proof. cbv zeta. split; vm_compute; reflexivity. Qed.

(** C9, amended.  Whatever the log fetch answers, error or not,
    [sendCrashNotification] returns and posts one attachment, whose first
    field is [Logs] and wraps the bytes the fetch handed back in a code fence;
    when the fetch handed back no bytes, the fence is empty. *)
Theorem log_fetch_failure_keeps_alert (env : Env) (pod : Pod)
    (ct : ContainerStatus) (c : Controller) :
  let logs := fst (GetLogs env (Namespace pod) (Name pod) (Container_Name ct)) in
  let out := sendCrashNotification env pod ct c in
  fst out = Return tt
  /\ posts (snd out) = posts c ++ [crashAttachment pod ct logs]
  /\ hd_error (Fields (crashAttachment pod ct logs))
     = Some {| Field_Title := "Logs";
               Field_Value := "```" +:+ LF +:+ logs +:+ "```" |}
  /\ (logs = "" ->
      hd_error (Fields (crashAttachment pod ct logs))
      = Some {| Field_Title := "Logs"; Field_Value := "```" +:+ LF +:+ "```" |}).
Proof.
  cbv zeta.
  assert (Hhd : forall logs,
             hd_error (Fields (crashAttachment pod ct logs))
             = Some {| Field_Title := "Logs";
                       Field_Value := "```" +:+ LF +:+ logs +:+ "```" |}).
  { intros logs. unfold crashAttachment. cbn [Fields].
    destruct (Terminated (LastTerminationState ct)); reflexivity. }
  rewrite sendCrashNotification_unfold. cbn [fst snd posts].
  split; [reflexivity|]. split; [reflexivity|]. split.
  - apply Hhd.
  - intros Hempty. rewrite Hhd, Hempty. reflexivity.
Qed.

(** A fetch that fails without bytes: the alert goes out with an empty fence
    in its [Logs] field. *)
Lemma log_fetch_failure_keeps_alert_witness :
  let env := Scenario.world {[ "default/pod-a" := Scenario.podA ]} Scenario.T0
               ("", Some "connection reset") (fun _ => None) in
  posts (snd (sendCrashNotification env Scenario.podA
                (Scenario.crashLooping "main") NewController))
    = [crashAttachment Scenario.podA (Scenario.crashLooping "main") ""]
  /\ hd_error (Fields (crashAttachment Scenario.podA
                         (Scenario.crashLooping "main") ""))
     = Some {| Field_Title := "Logs"; Field_Value := "```" +:+ LF +:+ "```" |}.
Proof.
  cbv zeta.
  destruct (log_fetch_failure_keeps_alert
              (Scenario.world {[ "default/pod-a" := Scenario.podA ]} Scenario.T0
                 ("", Some "connection reset") (fun _ => None))
              Scenario.podA (Scenario.crashLooping "main") NewController)
    as (_ & Hposts & _ & Hempty).
  split; [exact Hposts|].
  apply Hempty. reflexivity.
Defined.

(** ** The stored timestamps (claim C10) *)

(** C10.  A debounce evaluation that returns false leaves the stored
    timestamps unchanged; no evaluation of the check, no pass over a pod's
    containers, no run of the error handler and no whole pass for a key the
    cache reports present removes a timestamp; [clearTimeout] is the operation
    that removes one. *)
Theorem suppressed_check_keeps_timestamps (env : Env) (pod : Pod)
    (ct : ContainerStatus) (c : Controller) :
  (fst (refreshBackoff env pod ct c) = Return false ->
   timeouts (snd (refreshBackoff env pod ct c)) = timeouts c)
  /\ keepsTimestamps c (snd (refreshBackoff env pod ct c))
  /\ keepsTimestamps c (snd (handlePodUpdate env pod c))
  /\ (forall err key, timeouts (snd (handleErr err key c)) = timeouts c)
  /\ (forall key obj err, GetByKey env key = (obj, true, err) ->
        keepsTimestamps c (snd (processNextItem env (key, false) c)))
  /\ timeouts (snd (clearTimeout pod c)) = delete (Name pod) (timeouts c).
Proof.
  repeat split.
  - rewrite refreshBackoff_unfold. destruct (_ <? _); simpl; [reflexivity|discriminate].
  - apply refreshBackoff_keepsTimestamps.
  - apply handlePodUpdate_keepsTimestamps.
  - intros err key. apply handleErr_timeouts.
  - intros key obj err H. exact (processNextItem_keepsTimestamps env key c obj err H).
Qed.

(** One minute after an alert the check suppresses, and the timestamp of the
    alert stays as it was. *)
Lemma suppressed_check_keeps_timestamps_witness :
  timeouts
    (snd (refreshBackoff
            (Scenario.world ∅ (Scenario.T0 + 1 * time.Minute) ("", None)
               (fun _ => None))
            Scenario.podA (Scenario.crashLooping "main")
            (Scenario.notifiedAt "pod-a" Scenario.T0)))
  = {[ "pod-a" := Scenario.T0 ]}.
Proof.
  apply (suppressed_check_keeps_timestamps
           (Scenario.world ∅ (Scenario.T0 + 1 * time.Minute) ("", None)
              (fun _ => None))
           Scenario.podA (Scenario.crashLooping "main")
           (Scenario.notifiedAt "pod-a" Scenario.T0)).
  vm_compute. reflexivity.
Defined.

(** * Further properties of the controller *)

(** ** The outcomes of the business-logic step *)

(** [syncToStdout] ends in one of four ways: it returns the cache's error,
    it panics on a nil object, it clears the timestamp of a pod the cache
    reports absent, or it handles the pod the cache reports present. *)
Lemma syncToStdout_cases (env : Env) (key : string) (c : Controller) :
  (exists obj found e, GetByKey env key = (obj, found, Some e)
     /\ syncToStdout env key c = (Return (Some e), c))
  \/ (exists found, GetByKey env key = (None, found, None)
     /\ syncToStdout env key c
        = (Panic "interface conversion: interface {} is nil, not *v1.Pod", c))
  \/ (exists pod, GetByKey env key = (Some pod, false, None)
     /\ syncToStdout env key c = (Return None, snd (clearTimeout pod c)))
  \/ (exists pod, GetByKey env key = (Some pod, true, None)
     /\ syncToStdout env key c = (Return None, snd (handlePodUpdate env pod c))).
Proof.
  destruct (GetByKey env key) as [[obj found] err] eqn:H.
  destruct err as [e|].
  - left. exists obj, found, e. split; [reflexivity|].
    exact (syncToStdout_cache_error env key c obj found e H).
  - destruct obj as [pod|].
    + destruct found.
      * right. right. right. exists pod. split; [reflexivity|].
        exact (syncToStdout_present env key c pod H).
      * right. right. left. exists pod. split; [reflexivity|].
        unfold syncToStdout. rewrite H. reflexivity.
    + right. left. exists found. split; [reflexivity|].
      unfold syncToStdout. rewrite H. destruct found; reflexivity.
Qed.

Lemma syncToStdout_sameQueue (env : Env) (key : string) (c : Controller) :
  sameQueue c (snd (syncToStdout env key c)).
Proof.
  destruct (syncToStdout_cases env key c)
    as [(obj & found & e & _ & ->)|[(found & _ & ->)|[(pod & _ & ->)|(pod & _ & ->)]]];
    cbn [snd].
  - apply sameQueue_refl.
  - apply sameQueue_refl.
  - unfold sameQueue. simpl. auto.
  - apply handlePodUpdate_sameQueue.
Qed.

Lemma handleErr_returns (err : option string) (key : string) (c : Controller) :
  fst (handleErr err key c) = Return tt.
Proof.
  unfold handleErr, NumRequeues, bind, gets. destruct err as [e|]; [|reflexivity].
  destruct (_ <? _)%nat; reflexivity.
Qed.

Lemma handleErr_sameBusinessState (err : option string) (key : string)
    (c : Controller) :
  sameBusinessState c (snd (handleErr err key c)).
Proof.
  unfold sameBusinessState, handleErr, NumRequeues, bind, gets.
  destruct err as [e|]; [|simpl; auto].
  destruct (_ <? _)%nat; simpl; auto.
Qed.

Lemma handleErr_other_key (err : option string) (key key' : string)
    (c : Controller) :
  key <> key' -> requeues (snd (handleErr err key c)) key' = requeues c key'.
Proof.
  intros Hne. unfold requeues, handleErr, NumRequeues, bind, gets.
  destruct err as [e|]; simpl.
  - destruct (_ <? _)%nat; simpl.
    + rewrite lookup_insert_ne by exact Hne. reflexivity.
    + rewrite lookup_delete_ne by exact Hne. reflexivity.
  - rewrite lookup_delete_ne by exact Hne. reflexivity.
Qed.

(** A pass that is not a shutdown, in terms of its two steps. *)
Lemma processNextItem_unfold (env : Env) (key : string) (c : Controller) :
  processNextItem env (key, false) c =
    match syncToStdout env key c with
    | (Return err, c1) =>
        (Return true,
         mkController (timeouts (snd (handleErr err key c1)))
           (failures (snd (handleErr err key c1)))
           (delayed (snd (handleErr err key c1)))
           (done (snd (handleErr err key c1)) ++ [key])
           (posts (snd (handleErr err key c1)))
           (handled (snd (handleErr err key c1)))
           (ticks (snd (handleErr err key c1))))
    | (Panic msg, c1) =>
        (Panic msg,
         mkController (timeouts c1) (failures c1) (delayed c1)
           (done c1 ++ [key]) (posts c1) (handled c1) (ticks c1))
    end.
Proof.
  unfold processNextItem, defer, bind.
  destruct (syncToStdout env key c) as [[err|msg] c1]; [|reflexivity].
  pose proof (handleErr_returns err key c1) as Hr.
  destruct (handleErr err key c1) as [[[]|msg] c2]; simpl in *;
    [reflexivity|discriminate].
Qed.

Lemma processNextItem_done (env : Env) (key : string) (c : Controller) :
  done (snd (processNextItem env (key, false) c)) = done c ++ [key].
Proof.
  rewrite processNextItem_unfold.
  destruct (syncToStdout_sameQueue env key c) as (_ & _ & _ & Hdone).
  destruct (syncToStdout env key c) as [[err|msg] c1]; cbn [snd done] in *.
  - destruct (handleErr_sameBusinessState err key c1) as (_ & _ & Hd & _).
    rewrite Hd, Hdone. reflexivity.
  - rewrite Hdone. reflexivity.
Qed.

(** ** The pass as a whole *)

(** X1.  A pass that is not a shutdown hands its key to [Done] exactly once,
    whether the business logic returns, fails or panics; on shutdown the pass
    returns false and touches nothing, [Done] included. *)
Theorem processNextItem_marks_done_once (env : Env) (key : string)
    (c : Controller) :
  done (snd (processNextItem env (key, false) c)) = done c ++ [key]
  /\ processNextItem env (key, true) c = (Return false, c).
Proof.
  split; [apply processNextItem_done|reflexivity].
Qed.

(** X2.  A pass panics exactly when the cache answers with the nil object and
    no error; in every other case it returns true. *)
Theorem processNextItem_panics_iff (env : Env) (key : string) (c : Controller) :
  ((exists msg, fst (processNextItem env (key, false) c) = Panic msg)
   <-> (exists found, GetByKey env key = (None, found, None)))
  /\ (fst (processNextItem env (key, false) c) = Return true
      <-> ~ (exists found, GetByKey env key = (None, found, None))).
Proof.
  rewrite processNextItem_unfold.
  destruct (syncToStdout_cases env key c)
    as [(obj & found & e & Hget & ->)|[(found & Hget & ->)
       |[(pod & Hget & ->)|(pod & Hget & ->)]]]; cbn [fst]; rewrite Hget.
  - split; split.
    + intros [msg H]. discriminate.
    + intros [f H]. discriminate.
    + intros _ [f H]. discriminate.
    + reflexivity.
  - split; split.
    + eauto.
    + eauto.
    + discriminate.
    + intros H. exfalso. apply H. eauto.
  - split; split.
    + intros [msg H]. discriminate.
    + intros [f H]. discriminate.
    + intros _ [f H]. discriminate.
    + reflexivity.
  - split; split.
    + intros [msg H]. discriminate.
    + intros [f H]. discriminate.
    + intros _ [f H]. discriminate.
    + reflexivity.
Qed.

(** X3.  The business-logic step never touches the retry bookkeeping: the
    failure counts, the keys scheduled for retry, the reported errors and the
    keys marked done are after [syncToStdout] what they were before, however
    the step ends. *)
Theorem syncToStdout_leaves_retry_state (env : Env) (key : string)
    (c : Controller) :
  failures (snd (syncToStdout env key c)) = failures c
  /\ delayed (snd (syncToStdout env key c)) = delayed c
  /\ handled (snd (syncToStdout env key c)) = handled c
  /\ done (snd (syncToStdout env key c)) = done c.
Proof. exact (syncToStdout_sameQueue env key c). Qed.

(** X4.  The error handler always returns; it posts nothing, touches no
    debounce timestamp, and never changes the failure count of another key:
    every key has a retry budget of its own. *)
Theorem handleErr_frame (err : option string) (key : string) (c : Controller) :
  fst (handleErr err key c) = Return tt
  /\ timeouts (snd (handleErr err key c)) = timeouts c
  /\ posts (snd (handleErr err key c)) = posts c
  /\ (forall key', key <> key' ->
        requeues (snd (handleErr err key c)) key' = requeues c key').
Proof.
  destruct (handleErr_sameBusinessState err key c) as (Ht & Hp & _ & _).
  split; [apply handleErr_returns|]. split; [exact Ht|]. split; [exact Hp|].
  intros key' Hne. apply handleErr_other_key. exact Hne.
Qed.

(** X5.  A pass whose cache lookup fails posts nothing and leaves every
    timestamp alone; it returns true, and the key is scheduled for a retry
    and counted while its failure count is below 5, and otherwise dropped
    with the error handed to the error reporter. *)
Theorem cache_error_is_retried (env : Env) (key : string) (c : Controller)
    (obj : option Pod) (found : bool) (e : string) :
  GetByKey env key = (obj, found, Some e) ->
  let c' := snd (processNextItem env (key, false) c) in
  fst (processNextItem env (key, false) c) = Return true
  /\ posts c' = posts c /\ timeouts c' = timeouts c
  /\ ((requeues c key < 5)%nat ->
        requeues c' key = S (requeues c key)
        /\ delayed c' = delayed c ++ [key] /\ handled c' = handled c)
  /\ ((5 <= requeues c key)%nat ->
        requeues c' key = 0%nat
        /\ delayed c' = delayed c /\ handled c' = handled c ++ [e]).
Proof.
  intros H. cbv zeta. rewrite processNextItem_unfold.
  rewrite (syncToStdout_cache_error env key c obj found e H). cbn [fst snd].
  destruct (handleErr_sameBusinessState (Some e) key c) as (Ht & Hp & _ & _).
  cbn [posts timeouts delayed handled].
  split; [reflexivity|]. split; [exact Hp|]. split; [exact Ht|]. split.
  - intros Hlt. unfold requeues at 1. cbn [failures].
    rewrite handleErr_retry by exact Hlt. cbn [snd failures delayed handled].
    rewrite lookup_insert_eq. auto.
  - intros Hge. unfold requeues at 1. cbn [failures].
    rewrite handleErr_drop by exact Hge. cbn [snd failures delayed handled].
    rewrite lookup_delete_eq. auto.
Qed.

(** The cache of [default/pod-a] fails with a timeout on a new controller:
    the key is scheduled again. *)
Lemma cache_error_is_retried_witness :
  let env := {| Now := Scenario.clockFrom Scenario.T0;
                GetByKey := fun _ => (None, false, Some "timeout");
                GetLogs := fun _ _ _ => ("", None);
                SendResult := fun _ _ => None |} in
  delayed (snd (processNextItem env ("default/pod-a", false) NewController))
  = ["default/pod-a"].
Proof.
  cbv zeta.
  destruct (cache_error_is_retried
              {| Now := Scenario.clockFrom Scenario.T0;
                 GetByKey := fun _ => (None, false, Some "timeout");
                 GetLogs := fun _ _ _ => ("", None);
                 SendResult := fun _ _ => None |}
              "default/pod-a" NewController None false "timeout" eq_refl)
    as (_ & _ & _ & Hretry & _).
  apply Hretry. vm_compute. lia.
Defined.

(** ** The window and the clearing of a timestamp *)

(** A name without a stored timestamp always passes the check: the zero
    instant is more than a maximal duration before 1970. *)
Lemma debouncePasses_fresh (env : Env) (pod : Pod) (c : Controller) :
  timeouts c !! Name pod = None -> time.unixEpoch <= Now env (ticks c) ->
  debouncePasses env pod c.
Proof.
  intros Hnone Hclock. unfold debouncePasses, lastNotified. rewrite Hnone. simpl.
  rewrite Sub_saturates; [apply backoffWindow_range|].
  unfold time.zeroTime, time.maxDuration, time.unixEpoch, time.Second in *. lia.
Qed.

(** X6.  The cool-down window of a pod, by what [Atoi] answers for its backoff
    annotation.  The window is the ten-minute default when the annotation is
    absent or empty, and when [Atoi] parses it.  When the annotation is
    present and [Atoi] fails, the value beside the error is 0, the largest or
    the smallest [int64], and the window is minus one second for the largest
    (the product wraps) and zero for the other two.  So the window is always
    one of these three values. *)
Theorem backoffWindow_values (pod : Pod) :
  let annotation := GetAnnotation pod annotationMattermostBackoff in
  (backoffWindow pod = 10 * time.Minute
   \/ backoffWindow pod = 0 \/ backoffWindow pod = - time.Second)
  /\ (annotation = "" -> backoffWindow pod = 10 * time.Minute)
  /\ (forall n, strconv.Atoi annotation = (n, None) ->
        backoffWindow pod = 10 * time.Minute)
  /\ (forall n e, annotation <> "" -> strconv.Atoi annotation = (n, Some e) ->
        (n = 0 /\ backoffWindow pod = 0)
        \/ (n = 2 ^ 63 - 1 /\ backoffWindow pod = - time.Second)
        \/ (n = - 2 ^ 63 /\ backoffWindow pod = 0)).
Proof.
  cbv zeta. split; [|split; [|split]].
  - destruct (String.eqb_spec (GetAnnotation pod annotationMattermostBackoff) "")
      as [He|Hne].
    + left. unfold backoffWindow. rewrite He. reflexivity.
    + destruct (strconv.Atoi (GetAnnotation pod annotationMattermostBackoff))
        as [v [e|]] eqn:Ha.
      * right. exact (backoffWindow_malformed pod v e Hne Ha).
      * left. rewrite (backoffWindow_parsed pod v Ha). reflexivity.
  - intros He. unfold backoffWindow. rewrite He. reflexivity.
  - intros n Ha. rewrite (backoffWindow_parsed pod n Ha). reflexivity.
  - intros n e Hne Ha. rewrite (backoffWindow_unparsed pod n e Hne Ha).
    destruct (Atoi_error_values _ _ _ Ha) as [->|[->| ->]];
      [left|right; left|right; right]; split; reflexivity.
Qed.

(** Three annotations [Atoi] fails on: not a number, digits beyond the
    largest [int64], digits below the smallest. *)
Lemma backoffWindow_values_witness :
  backoffWindow (Scenario.crashingPod "default" "pod-a"
                   (Scenario.optInWithBackoff "ten")) = 0
  /\ backoffWindow (Scenario.crashingPod "default" "pod-a"
                      (Scenario.optInWithBackoff "9223372036854775808"))
     = - time.Second
  /\ backoffWindow (Scenario.crashingPod "default" "pod-a"
                      (Scenario.optInWithBackoff "-9223372036854775809")) = 0.
Proof.
  split; [|split].
  - destruct (backoffWindow_values
                (Scenario.crashingPod "default" "pod-a"
                   (Scenario.optInWithBackoff "ten")))
      as (_ & _ & _ & H).
    destruct (H 0 strconv.ErrSyntax) as [[_ Hw]|[[Hn _]|[Hn _]]];
      [vm_compute; discriminate|reflexivity|exact Hw
      |vm_compute in Hn; discriminate|vm_compute in Hn; discriminate].
  - destruct (backoffWindow_values
                (Scenario.crashingPod "default" "pod-a"
                   (Scenario.optInWithBackoff "9223372036854775808")))
      as (_ & _ & _ & H).
    destruct (H (2 ^ 63 - 1) strconv.ErrRange) as [[Hn _]|[[_ Hw]|[Hn _]]];
      [vm_compute; discriminate|reflexivity|vm_compute in Hn; discriminate
      |exact Hw|vm_compute in Hn; discriminate].
  - destruct (backoffWindow_values
                (Scenario.crashingPod "default" "pod-a"
                   (Scenario.optInWithBackoff "-9223372036854775809")))
      as (_ & _ & _ & H).
    destruct (H (- 2 ^ 63) strconv.ErrRange) as [[Hn _]|[[Hn _]|[_ Hw]]];
      [vm_compute; discriminate|reflexivity|vm_compute in Hn; discriminate
      |vm_compute in Hn; discriminate|exact Hw].
Defined.

(** X7.  Clearing resets the debounce: once [clearTimeout] ran for a pod, the
    next check for a pod of that name passes, whatever was stored before (the
    clock reading an instant since 1970).  Clearing twice is clearing once,
    and clearing a name that has no timestamp changes no timestamp. *)
Theorem clearTimeout_resets_debounce (env : Env) (pod pod' : Pod)
    (ct : ContainerStatus) (c : Controller) :
  (Name pod' = Name pod -> time.unixEpoch <= Now env (ticks c) ->
   fst (refreshBackoff env pod' ct (snd (clearTimeout pod c))) = Return true)
  /\ snd (clearTimeout pod (snd (clearTimeout pod c))) = snd (clearTimeout pod c)
  /\ (timeouts c !! Name pod = None ->
      timeouts (snd (clearTimeout pod c)) = timeouts c).
Proof.
  split; [|split].
  - intros Hname Hclock.
    rewrite refreshBackoff_passed; [reflexivity|].
    apply (debouncePasses_fresh env pod' (snd (clearTimeout pod c))).
    + simpl. rewrite Hname. apply lookup_delete_eq.
    + exact Hclock.
  - simpl. rewrite delete_delete_eq. reflexivity.
  - intros Hnone. simpl. apply delete_id. exact Hnone.
Qed.

(** ** The pass over the containers of a pod *)

(** The three ways a turn of the loop can go. *)
Lemma handleContainer_cases (env : Env) (pod : Pod) (ct : ContainerStatus)
    (c : Controller) :
  handleContainer env pod ct c = (Return tt, c)
  \/ (isCrashLooping ct /\ optedIn pod /\ ~ debouncePasses env pod c
      /\ handleContainer env pod ct c = (Return tt, tick c))
  \/ (isCrashLooping ct /\ optedIn pod /\ debouncePasses env pod c
      /\ handleContainer env pod ct c
         = (Return tt,
            mkController (<[Name pod := Now env (S (ticks c))]> (timeouts c))
              (failures c) (delayed c) (done c)
              (posts c ++ [alertFor env pod ct]) (handled c)
              (S (S (ticks c))))).
Proof.
  destruct (isCrashLooping_dec ct) as [Hcl|Hcl];
    [|left; apply handleContainer_not_crashlooping; exact Hcl].
  destruct (String.eqb_spec (GetAnnotation pod annotationEnableMattermost)
              annotationEnableMattermostInform) as [Hopt|Hopt];
    [|left; apply handleContainer_not_opted_in; exact Hopt].
  destruct (Z_le_gt_dec (backoffWindow pod)
              (time.Sub (Now env (ticks c)) (lastNotified c (Name pod))))
    as [Hp|Hp].
  - right. right. split; [exact Hcl|]. split; [exact Hopt|]. split; [exact Hp|].
    apply handleContainer_alert; assumption.
  - assert (Hn : ~ debouncePasses env pod c) by (unfold debouncePasses; lia).
    right. left. split; [exact Hcl|]. split; [exact Hopt|]. split; [exact Hn|].
    apply handleContainer_suppressed; assumption.
Qed.

Lemma forRange_cons {A} (body : A -> M unit) (x : A) (rest : list A)
    (c c1 : Controller) :
  body x c = (Return tt, c1) ->
  forRange (x :: rest) body c = forRange rest body c1.
Proof. intros H. simpl. unfold bind. rewrite H. reflexivity. Qed.

Lemma forRange_app {A} (body : A -> M unit) (l1 l2 : list A) (c c1 : Controller) :
  forRange l1 body c = (Return tt, c1) ->
  forRange (l1 ++ l2) body c = forRange l2 body c1.
Proof.
  revert c. induction l1 as [|x l1 IH]; intros c H.
  - simpl in H. unfold ret in H. inversion H. reflexivity.
  - simpl in *. unfold bind in *.
    destruct (body x c) as [[[]|msg] c2]; [apply IH; exact H|discriminate].
Qed.

Lemma alerts_of_rest (env : Env) (pod : Pod) (ct : ContainerStatus)
    (rest : list ContainerStatus) (new : list SlackAttachment) :
  Forall (fun a => exists x, In x rest /\ isCrashLooping x
                             /\ a = alertFor env pod x) new ->
  Forall (fun a => exists x, In x (ct :: rest) /\ isCrashLooping x
                             /\ a = alertFor env pod x) new.
Proof.
  intros Hall. eapply Forall_impl; [exact Hall|].
  intros a (x & Hin & Hc & Ha). exists x. split; [right; exact Hin|]. auto.
Qed.

(** The posts of a pass extend the posts before it, by alerts of crash-looping
    containers of the pod, and by none unless the pod is opted in. *)
Lemma forRange_posts (env : Env) (pod : Pod) (l : list ContainerStatus)
    (c : Controller) :
  exists new,
    posts (snd (forRange l (handleContainer env pod) c)) = posts c ++ new
    /\ Forall (fun a => exists ct, In ct l /\ isCrashLooping ct
                                   /\ a = alertFor env pod ct) new
    /\ (new <> [] -> optedIn pod).
Proof.
  revert c. induction l as [|ct rest IH]; intros c.
  - exists []. simpl. rewrite app_nil_r.
    split; [reflexivity|]. split; [constructor|congruence].
  - destruct (handleContainer_cases env pod ct c)
      as [H|[(Hcl & Hopt & _ & H)|(Hcl & Hopt & _ & H)]];
      rewrite (forRange_cons _ _ _ _ _ H).
    + destruct (IH c) as (new & Hp & Hall & Ho). exists new.
      split; [exact Hp|]. split; [apply alerts_of_rest; exact Hall|exact Ho].
    + destruct (IH (tick c)) as (new & Hp & Hall & Ho). exists new.
      split; [exact Hp|]. split; [apply alerts_of_rest; exact Hall|exact Ho].
    + match goal with |- context [forRange rest _ ?c2] =>
        destruct (IH c2) as (new & Hp & Hall & Ho) end.
      exists (alertFor env pod ct :: new). cbn [posts] in Hp.
      split; [rewrite Hp, <- app_assoc; reflexivity|]. split.
      * constructor; [exists ct; split; [left; reflexivity|auto]|].
        apply alerts_of_rest. exact Hall.
      * intros _. exact Hopt.
Qed.

(** ** When an alert is attempted (claim C7) *)

(** C7, as stated, fails.  The pod [default/pod-a] carries the opt-in
    annotation and its container [main] is not ready and waits with reason
    [CrashLoopBackOff]; the pod was alerted at [T0] and is handled again one
    minute later.  No alert is attempted: the debounce check suppresses. *)
Lemma crashlooping_opted_in_without_alert :
  let env := Scenario.world {[ "default/pod-a" := Scenario.podA ]}
               (Scenario.T0 + 1 * time.Minute) ("", None) (fun _ => None) in
  let c := Scenario.notifiedAt "pod-a" Scenario.T0 in
  ContainerStatuses Scenario.podA = [Scenario.crashLooping "main"]
  /\ Ready (Scenario.crashLooping "main") = false
  /\ Waiting (State (Scenario.crashLooping "main"))
     = Some {| Waiting_Reason := "CrashLoopBackOff" |}
  /\ hasValidAnnotation Scenario.podA = true
  /\ handlePodUpdate env Scenario.podA c = (Return tt, tick c)
  /\ posts (snd (handlePodUpdate env Scenario.podA c)) = [].
Proof. cbv zeta. repeat split; vm_compute; reflexivity. Qed.

(** One turn of the loop and the turns after it: the alert of the container
    is posted first exactly when it is due, and what follows are alerts of
    the containers after it. *)
Lemma forRange_turn (env : Env) (pod : Pod) (ct : ContainerStatus)
    (after : list ContainerStatus) (turn : Controller) :
  exists later,
    Forall (alertAmong env pod after) later
    /\ (isCrashLooping ct /\ optedIn pod /\ debouncePasses env pod turn ->
        posts (snd (forRange (ct :: after) (handleContainer env pod) turn))
        = posts turn ++ alertFor env pod ct :: later)
    /\ (~ (isCrashLooping ct /\ optedIn pod /\ debouncePasses env pod turn) ->
        posts (snd (forRange (ct :: after) (handleContainer env pod) turn))
        = posts turn ++ later).
Proof.
  destruct (handleContainer_cases env pod ct turn)
    as [H|[(Hcl & Hopt & Hn & H)|(Hcl & Hopt & Hp & H)]];
    rewrite (forRange_cons _ _ _ _ _ H).
  - destruct (forRange_posts env pod after turn) as (later & Hlater & Hall & _).
    exists later. split; [exact Hall|]. split; [|intros _; exact Hlater].
    intros (Hcl & Hopt & Hp). exfalso.
    rewrite (handleContainer_alert env pod ct turn Hcl Hopt Hp) in H.
    pose proof (f_equal (fun r => length (posts (snd r))) H) as Hposts.
    cbn [snd posts] in Hposts. rewrite length_app in Hposts.
    simpl in Hposts. lia.
  - destruct (forRange_posts env pod after (tick turn))
      as (later & Hlater & Hall & _).
    exists later. split; [exact Hall|]. split; [|intros _; exact Hlater].
    intros (_ & _ & Hp). contradiction.
  - match goal with |- context [forRange after _ ?c2] =>
      destruct (forRange_posts env pod after c2) as (later & Hlater & Hall & _)
    end.
    exists later. split; [exact Hall|]. cbn [posts] in Hlater. split.
    + intros _. rewrite Hlater, <- app_assoc. reflexivity.
    + intros Hnot. exfalso. apply Hnot. auto.
Qed.

(** C7, amended.  In a pass of [handlePodUpdate] over a pod, every container
    of the pod gets its turn, in order, and an alert is attempted for it
    exactly when it is not ready, waits with reason [CrashLoopBackOff], the
    pod carries the opt-in annotation, and the debounce check passes in the
    state the loop has reached at that turn: the posts of the pass are the
    posts before it, then alerts of the containers before this one, then the
    alert of this container if and only if it is due, then alerts of the
    containers after it.  A pod without the opt-in annotation is left without
    any effect by every pass, however many passes there are and whatever the
    world of each. *)
Theorem alert_when_crashlooping_opted_in_and_due (env : Env) (pod : Pod)
    (c : Controller) (before : list ContainerStatus) (ct : ContainerStatus)
    (after : list ContainerStatus) :
  ContainerStatuses pod = before ++ ct :: after ->
  let turn := reached env pod before c in
  let due := isCrashLooping ct /\ optedIn pod /\ debouncePasses env pod turn in
  (exists earlier later,
     posts turn = posts c ++ earlier
     /\ Forall (alertAmong env pod before) earlier
     /\ Forall (alertAmong env pod after) later
     /\ (due -> posts (snd (handlePodUpdate env pod c))
                = posts c ++ earlier ++ alertFor env pod ct :: later)
     /\ (~ due -> posts (snd (handlePodUpdate env pod c))
                  = posts c ++ earlier ++ later))
  /\ (~ optedIn pod ->
      forall worlds : list Env,
        fold_left (fun s w => snd (handlePodUpdate w pod s)) worlds c = c).
Proof.
  intros Hsplit. cbv zeta. split.
  - unfold handlePodUpdate, reached. rewrite Hsplit.
    pose proof (forRange_returns (handleContainer env pod)
                  (handleContainer_returns env pod) before c) as Hret.
    destruct (forRange_posts env pod before c) as (earlier & Hearlier & Hall & _).
    destruct (forRange before (handleContainer env pod) c) as [r turn] eqn:Hpre.
    cbn [fst snd] in *. subst r.
    rewrite (forRange_app _ _ _ _ _ Hpre).
    destruct (forRange_turn env pod ct after turn) as (later & Hl & Hdue & Hnot).
    exists earlier, later.
    split; [exact Hearlier|]. split; [exact Hall|]. split; [exact Hl|]. split.
    + intros Hd. rewrite (Hdue Hd), Hearlier, <- app_assoc. reflexivity.
    + intros Hd. rewrite (Hnot Hd), Hearlier, <- app_assoc. reflexivity.
  - intros Hopt worlds. induction worlds as [|w worlds IH]; [reflexivity|].
    simpl. rewrite handlePodUpdate_not_opted_in by exact Hopt. exact IH.
Qed.

(** A pass over the opted-in pod [default/pod-a] on a new controller: its one
    container crash-loops and is due, and the pass posts its alert and nothing
    else. *)
Lemma alert_when_crashlooping_opted_in_and_due_witness :
  let env := Scenario.world {[ "default/pod-a" := Scenario.podA ]} Scenario.T0
               ("", None) (fun _ => None) in
  posts (snd (handlePodUpdate env Scenario.podA NewController))
  = [alertFor env Scenario.podA (Scenario.crashLooping "main")].
Proof.
  cbv zeta.
  destruct (alert_when_crashlooping_opted_in_and_due
              (Scenario.world {[ "default/pod-a" := Scenario.podA ]} Scenario.T0
                 ("", None) (fun _ => None))
              Scenario.podA NewController [] (Scenario.crashLooping "main") []
              eq_refl)
    as [(earlier & later & _ & Hearlier & Hlater & Hdue & _) _].
  destruct earlier as [|a earlier];
    [|exfalso; inversion Hearlier as [|? ? (x & [] & _) _]].
  destruct later as [|a later];
    [|exfalso; inversion Hlater as [|? ? (x & [] & _) _]].
  apply Hdue. split; [|split].
  - split; [reflexivity|]. eexists. split; reflexivity.
  - reflexivity.
  - vm_compute. discriminate.
Defined.

(** X8.  Every attachment a pass over a pod posts is the alert of one of the
    pod's containers that is not ready and waits with reason
    [CrashLoopBackOff]; the posts made before the pass stay as they were, in
    front; and a pass posts nothing unless the pod is opted in. *)
Theorem handlePodUpdate_alerts_are_sound (env : Env) (pod : Pod)
    (c : Controller) :
  exists new,
    posts (snd (handlePodUpdate env pod c)) = posts c ++ new
    /\ Forall (alertOf env pod) new
    /\ (new <> [] -> optedIn pod).
Proof. exact (forRange_posts env pod (ContainerStatuses pod) c). Qed.

(** Once a timestamp read from the clock is stored for the pod, the rest of a
    pass under a steady clock posts nothing. *)
Lemma forRange_suppressed (env : Env) (pod : Pod) (first bound : nat) :
  steadyClock env first bound (backoffWindow pod) ->
  forall (rest : list ContainerStatus) (c : Controller) (i : nat),
    timeouts c !! Name pod = Some (Now env i) ->
    (first <= i)%nat -> (i < ticks c)%nat ->
    (ticks c + length rest <= bound)%nat ->
    posts (snd (forRange rest (handleContainer env pod) c)) = posts c.
Proof.
  intros Hclock rest. induction rest as [|ct rest IH]; intros c i Hts Hfi Hic Hb;
    [reflexivity|].
  simpl in Hb.
  destruct (handleContainer_cases env pod ct c)
    as [H|[(_ & _ & _ & H)|(_ & _ & Hpass & _)]].
  - rewrite (forRange_cons _ _ _ _ _ H). apply (IH c i); try assumption. lia.
  - rewrite (forRange_cons _ _ _ _ _ H).
    rewrite (IH (tick c) i); simpl; try assumption; [reflexivity|lia|lia].
  - exfalso. unfold debouncePasses, lastNotified in Hpass. rewrite Hts in Hpass.
    simpl in Hpass.
    destruct (Hclock i (ticks c)) as [Hle Hlt]; [lia|lia|lia|].
    pose proof (backoffWindow_range pod) as [_ Hmax].
    pose proof (Sub_lt _ _ _ Hle Hlt Hmax). lia.
Qed.

Lemma forRange_one_alert (env : Env) (pod : Pod) (first bound : nat) :
  steadyClock env first bound (backoffWindow pod) ->
  forall (l : list ContainerStatus) (c : Controller),
    (first <= ticks c)%nat -> (ticks c + 2 * length l <= bound)%nat ->
    (length (posts (snd (forRange l (handleContainer env pod) c)))
     <= S (length (posts c)))%nat.
Proof.
  intros Hclock l. induction l as [|ct rest IH]; intros c Hf Hb; [simpl; lia|].
  simpl in Hb.
  destruct (handleContainer_cases env pod ct c)
    as [H|[(_ & _ & _ & H)|(_ & _ & _ & H)]];
    rewrite (forRange_cons _ _ _ _ _ H).
  - apply IH; lia.
  - specialize (IH (tick c)). simpl in IH. apply IH; lia.
  - rewrite (forRange_suppressed env pod first bound Hclock rest _ (S (ticks c)));
      simpl; [rewrite length_app; simpl; lia| |lia|lia|lia].
    apply lookup_insert_eq.
Qed.

(** X9.  Under a steady clock (no reading of the pass before an earlier one,
    all of them less than the pod's window apart) a pass over a pod posts at
    most one alert, however many of its containers crash-loop: the check that
    lets the first alert through stores the timestamp that suppresses the
    others. *)
Theorem at_most_one_alert_per_pass (env : Env) (pod : Pod) (c : Controller) :
  steadyClock env (ticks c) (ticks c + 2 * length (ContainerStatuses pod))
    (backoffWindow pod) ->
  (length (posts (snd (handlePodUpdate env pod c))) <= S (length (posts c)))%nat.
Proof.
  intros Hclock. unfold handlePodUpdate.
  apply (forRange_one_alert env pod _ _ Hclock); lia.
Qed.

(** A pod with two crash-looping containers on a new controller: one alert. *)
Lemma at_most_one_alert_per_pass_witness :
  (length (posts (snd (handlePodUpdate
                         (Scenario.world ∅ Scenario.T0 ("", None) (fun _ => None))
                         Scenario.podTwo NewController))) <= 1)%nat.
Proof.
  apply (at_most_one_alert_per_pass
           (Scenario.world ∅ Scenario.T0 ("", None) (fun _ => None))
           Scenario.podTwo NewController).
  replace (backoffWindow Scenario.podTwo) with 600000000000
    by (vm_compute; reflexivity).
  intros i j Hi Hij Hj. simpl in *. unfold Scenario.clockFrom. lia.
Defined.

(** X10.  When no timestamp is stored under the name of an opted-in pod (and
    the clock reads an instant since 1970), a pass over the pod alerts for its
    first crash-looping container, whatever the pod's window: the alert is the
    first thing the pass posts. *)
Theorem first_crashlooping_container_alerts (env : Env) (pod : Pod)
    (c : Controller) (before after : list ContainerStatus)
    (ct : ContainerStatus) :
  timeouts c !! Name pod = None ->
  time.unixEpoch <= Now env (ticks c) ->
  optedIn pod ->
  ContainerStatuses pod = before ++ ct :: after ->
  Forall (fun x => ~ isCrashLooping x) before ->
  isCrashLooping ct ->
  exists more,
    posts (snd (handlePodUpdate env pod c))
    = posts c ++ alertFor env pod ct :: more.
Proof.
  intros Hnone Hclock Hopt Hsplit Hbefore Hcl.
  unfold handlePodUpdate. rewrite Hsplit.
  assert (Hpre : forRange before (handleContainer env pod) c = (Return tt, c)).
  { clear Hsplit. induction before as [|x before IH]; [reflexivity|].
    inversion Hbefore; subst.
    rewrite (forRange_cons _ _ _ _ c
               (handleContainer_not_crashlooping env pod x c ltac:(assumption))).
    apply IH. assumption. }
  rewrite (forRange_app _ _ _ _ _ Hpre).
  rewrite (forRange_cons _ _ _ _ _
             (handleContainer_alert env pod ct c Hcl Hopt
                (debouncePasses_fresh env pod c Hnone Hclock))).
  match goal with |- context [forRange after _ ?c2] =>
    destruct (forRange_posts env pod after c2) as (new & Hp & _ & _) end.
  exists new. rewrite Hp. simpl. rewrite <- app_assoc. reflexivity.
Qed.

(** The pod [default/pod-a] with two crash-looping containers on a new
    controller: the first post is the alert for [main]. *)
Lemma first_crashlooping_container_alerts_witness :
  let env := Scenario.world ∅ Scenario.T0 ("", None) (fun _ => None) in
  exists more,
    posts (snd (handlePodUpdate env Scenario.podTwo NewController))
    = alertFor env Scenario.podTwo (Scenario.crashLooping "main") :: more.
Proof.
  cbv zeta.
  apply (first_crashlooping_container_alerts
           (Scenario.world ∅ Scenario.T0 ("", None) (fun _ => None))
           Scenario.podTwo NewController []
           [Scenario.crashLooping "sidecar"] (Scenario.crashLooping "main")).
  - reflexivity.
  - vm_compute. discriminate.
  - reflexivity.
  - reflexivity.
  - constructor.
  - split; [reflexivity|]. eexists. split; reflexivity.
Defined.

(** ** The worker loop *)

Lemma processNextItem_servable (env : Env) (key : string) (c : Controller) :
  ~ (exists found, GetByKey env key = (None, found, None)) ->
  fst (processNextItem env (key, false) c) = Return true.
Proof.
  intros Hserv. rewrite processNextItem_unfold.
  destruct (syncToStdout_cases env key c)
    as [(obj & found & e & _ & ->)|[(found & Hget & _)
       |[(pod & _ & ->)|(pod & _ & ->)]]]; try reflexivity.
  exfalso. apply Hserv. eauto.
Qed.

(** X11.  The worker stops at the first shutdown answer of the queue: what
    [Get] would answer after it is never processed, and the shutdown itself
    changes nothing. *)
Theorem runWorker_stops_at_shutdown
    (before after : list (Env * (string * bool))) (env : Env) (key : string)
    (c : Controller) :
  runWorker (before ++ (env, (key, true)) :: after) c = runWorker before c.
Proof.
  revert c. induction before as [|[env0 got] before IH]; intros c.
  - reflexivity.
  - simpl. unfold bind.
    destruct (processNextItem env0 got c) as [[[]|msg] c1];
      [apply IH|reflexivity|reflexivity].
Qed.

(** X12.  While every answer of the queue is a key the cache can serve (no
    shutdown, and no nil object without an error), the worker processes the
    keys in the order [Get] yields them and hands each to [Done] once, in
    that order, without panicking. *)
Theorem runWorker_in_order (steps : list (Env * (string * bool)))
    (c : Controller) :
  Forall servable steps ->
  fst (runWorker steps c) = Return tt
  /\ done (snd (runWorker steps c))
     = done c ++ map (fun step => fst (snd step)) steps.
Proof.
  revert c. induction steps as [|[env [key quit]] steps IH]; intros c Hall.
  - simpl. rewrite app_nil_r. auto.
  - inversion Hall as [|step rest [Hquit Hserv] Hrest]; subst.
    simpl in Hquit, Hserv. subst quit.
    pose proof (processNextItem_servable env key c Hserv) as Hret.
    pose proof (processNextItem_done env key c) as Hdone.
    cbn [runWorker]. unfold bind.
    destruct (processNextItem env (key, false) c) as [[more|msg] c1];
      simpl in Hret, Hdone; [|discriminate].
    inversion Hret; subst more.
    destruct (IH c1 Hrest) as [Hr Hd]. split; [exact Hr|].
    rewrite Hd, Hdone, <- app_assoc. reflexivity.
Qed.

(** The queue yields [default/web], then [prod/web]; the cache holds both. *)
Lemma runWorker_in_order_witness :
  let env := Scenario.world Scenario.twoNamespaces Scenario.T0 ("", None)
               (fun _ => None) in
  done (snd (runWorker [(env, ("default/web", false));
                        (env, ("prod/web", false))] NewController))
  = ["default/web"; "prod/web"].
Proof.
  cbv zeta.
  apply (runWorker_in_order
           [(Scenario.world Scenario.twoNamespaces Scenario.T0 ("", None)
               (fun _ => None), ("default/web", false));
            (Scenario.world Scenario.twoNamespaces Scenario.T0 ("", None)
               (fun _ => None), ("prod/web", false))]
           NewController).
  repeat constructor; intros [found H]; vm_compute in H; discriminate.
Defined.

(** ** Suppression over a whole pass *)

Lemma forRange_within_window (env : Env) (pod : Pod) (T : Z) (bound : nat) :
  forall (l : list ContainerStatus) (c : Controller),
    timeouts c !! Name pod = Some T ->
    (ticks c + length l <= bound)%nat ->
    (forall i : nat, (ticks c <= i)%nat -> (i < bound)%nat ->
       T <= Now env i /\ Now env i - T < backoffWindow pod) ->
    posts (snd (forRange l (handleContainer env pod) c)) = posts c
    /\ timeouts (snd (forRange l (handleContainer env pod) c)) = timeouts c.
Proof.
  induction l as [|ct rest IH]; intros c Hts Hb Hclock; [split; reflexivity|].
  simpl in Hb.
  destruct (handleContainer_cases env pod ct c)
    as [H|[(_ & _ & _ & H)|(_ & _ & Hpass & _)]].
  - rewrite (forRange_cons _ _ _ _ _ H). apply IH; [exact Hts|lia|exact Hclock].
  - rewrite (forRange_cons _ _ _ _ _ H).
    destruct (IH (tick c)) as [Hp Ht]; simpl; [exact Hts|lia| |auto].
    intros i Hi Hlt. apply Hclock; lia.
  - exfalso. unfold debouncePasses, lastNotified in Hpass. rewrite Hts in Hpass.
    simpl in Hpass.
    destruct (Hclock (ticks c)) as [Hle Hlt]; [lia|lia|].
    pose proof (backoffWindow_range pod) as [_ Hmax].
    pose proof (Sub_lt _ _ _ Hle Hlt Hmax). lia.
Qed.

(** X13.  A pass over a pod whose stored timestamp [T] is less than the pod's
    window before every reading of the clock the pass can make (and not after
    any) posts nothing and leaves every timestamp as it was, however many
    containers of the pod crash-loop. *)
Theorem pass_within_window_posts_nothing (env : Env) (pod : Pod)
    (c : Controller) (T : Z) :
  timeouts c !! Name pod = Some T ->
  (forall i : nat, (ticks c <= i)%nat ->
     (i < ticks c + length (ContainerStatuses pod))%nat ->
     T <= Now env i /\ Now env i - T < backoffWindow pod) ->
  posts (snd (handlePodUpdate env pod c)) = posts c
  /\ timeouts (snd (handlePodUpdate env pod c)) = timeouts c.
Proof.
  intros Hts Hclock. unfold handlePodUpdate.
  apply (forRange_within_window env pod T
           (ticks c + length (ContainerStatuses pod))); [exact Hts|lia|exact Hclock].
Qed.

(** The pod with two crash-looping containers, alerted at [T0] and handled
    again one minute later: nothing is posted. *)
Lemma pass_within_window_posts_nothing_witness :
  posts (snd (handlePodUpdate
                (Scenario.world ∅ (Scenario.T0 + 1 * time.Minute) ("", None)
                   (fun _ => None))
                Scenario.podTwo (Scenario.notifiedAt "pod-a" Scenario.T0)))
  = [].
Proof.
  apply (pass_within_window_posts_nothing
           (Scenario.world ∅ (Scenario.T0 + 1 * time.Minute) ("", None)
              (fun _ => None))
           Scenario.podTwo (Scenario.notifiedAt "pod-a" Scenario.T0)
           Scenario.T0).
  - reflexivity.
  - replace (backoffWindow Scenario.podTwo) with 600000000000
      by (vm_compute; reflexivity).
    intros i Hi Hlt. simpl in *.
    unfold Scenario.clockFrom, Scenario.T0, time.Minute, time.Second. lia.
Defined.
